(** * v.disaggregate.population: the script and the GRASS session it drives

    The module is a thin Python script: it reads five options, checks that
    the add-on [v.area.weigh] is installed, issues six GRASS modules in a
    fixed order and registers a [cleanup] routine that runs at interpreter
    exit.  The development has three layers.

    - [Script]: the script itself ([main], [cleanup], the [__main__] block),
      written over an arbitrary GRASS session ([Grass] class).  Every module
      call may fail, as [grass.run_command] raises [CalledModuleError] on a
      non-zero exit status.
    - [Mapcalc] and [Session]: a reference GRASS session (computational
      region, raster store, MASK, [r.grow], [r.mapcalc]) used for the
      statements about cell values.
    - the theorems. *)

From Stdlib Require Import String Ascii List ZArith QArith Qround Qabs Bool Lia.
From Stdlib Require Import DecimalString DecimalN DecimalPos.
Import ListNotations.

Local Open Scope string_scope.
Local Open Scope list_scope.

(** ** External interface: GRASS modules called by the script *)

(** One constructor for each shape of [grass.run_command] call in the
    source; the arguments are the keyword arguments of the call. *)
Inductive command : Type :=
| r_mask_vector (vector : string)                       (* r.mask vector=... *)
| r_mask_remove                                         (* r.mask -r *)
| r_grow (input output : string) (radius : Q)           (* r.grow input= output= radius= *)
| r_mapcalc (expression : string)                       (* r.mapcalc expression=... *)
| v_area_weigh (vector column weight output : string)   (* v.area.weigh vector= column= weight= output= *)
| g_remove_raster (name : string).                      (* g.remove type=raster name=... -f, quiet *)

(** What the script does to the outside world, in order. *)
Inductive event : Type :=
| EvFindProgram (pgm args : string)
| EvFindFile (name element : string)
| EvRun (c : command)
| EvFatal (msg : string)
| EvMessage (msg : string).

(** A GRASS session as the script sees it.  [run_module] gives the session
    after the module ran and whether its exit status was zero. *)
Class Grass (W : Type) : Type := {
  find_program : string -> string -> W -> bool;
  find_file : string -> string -> W -> bool;
  run_module : command -> W -> W * bool;
  gettext : string -> string
}.

(** ** Python side: exceptions, the global [rm_rasters], the script monad *)

Inductive exn : Type :=
| SystemExit (status : Z)
| CalledModuleError (c : command).

Inductive outcome (A : Type) : Type :=
| Returned (a : A)
| Raised (e : exn).
Arguments Returned {A} a.
Arguments Raised {A} e.

Record state (W : Type) : Type := mkState {
  session : W;
  rm_rasters : list string;
  log : list event
}.
Arguments mkState {W} _ _ _.
Arguments session {W} _.
Arguments rm_rasters {W} _.
Arguments log {W} _.

Definition script (W A : Type) : Type := state W -> outcome A * state W.

Definition ret {W A} (a : A) : script W A := fun s => (Returned a, s).

Definition bind {W A B} (m : script W A) (k : A -> script W B) : script W B :=
  fun s =>
    match m s with
    | (Returned a, s') => k a s'
    | (Raised e, s') => (Raised e, s')
    end.

Declare Scope script_scope.
Delimit Scope script_scope with script.
Notation "x <- m ;; k" := (bind m (fun x => k))
  (at level 61, m at next level, right associativity) : script_scope.
Notation "m ;; k" := (bind m (fun _ => k))
  (at level 61, right associativity) : script_scope.
Local Open Scope script_scope.

Definition emit {W} (e : event) (s : state W) : state W :=
  mkState (session s) (rm_rasters s) (log s ++ [e]).

(** [try: m  except: pass] with a bare [except], which catches everything. *)
Definition try_except_pass {W} (m : script W unit) : script W unit :=
  fun s =>
    match m s with
    | (Returned a, s') => (Returned a, s')
    | (Raised _, s') => (Returned tt, s')
    end.

(** The five entries of the [options] dictionary filled by [grass.parser]. *)
Record options : Type := mkOptions {
  population_vector : string;
  population_column : string;
  population_raster : string;
  output : string;
  urban_vector : string
}.

(** ["%s" % pid] for the integer returned by [os.getpid]. *)
Definition str_of_pid (pid : N) : string := NilZero.string_of_uint (N.to_uint pid).

Definition newline : string := String (ascii_of_nat 10) EmptyString.

Definition radius_grow : Q := 101 # 100.
Definition radius_shrink : Q := - (101 # 100).

Section Script.
Context {W : Type} `{Grass W}.

(** *** Wrappers of [grass.script] *)

Definition grass_find_program (pgm args : string) : script W bool :=
  fun s => (Returned (find_program pgm args (session s)), emit (EvFindProgram pgm args) s).

(** Truth value of [grass.find_file(name=..., element=...)["file"]]. *)
Definition grass_find_file (name element : string) : script W bool :=
  fun s => (Returned (find_file name element (session s)), emit (EvFindFile name element) s).

(** [grass.fatal]: prints the message and exits with status 1. *)
Definition grass_fatal {A} (msg : string) : script W A :=
  fun s => (Raised (SystemExit 1), emit (EvFatal msg) s).

Definition grass_message (msg : string) : script W unit :=
  fun s => (Returned tt, emit (EvMessage msg) s).

(** [grass.run_command]: raises [CalledModuleError] on a non-zero status. *)
Definition grass_run_command (c : command) : script W unit :=
  fun s =>
    let (w', ok) := run_module c (session s) in
    let s' := mkState w' (rm_rasters s) (log s ++ [EvRun c]) in
    if ok then (Returned tt, s') else (Raised (CalledModuleError c), s').

(** [rm_rasters.append(name)] *)
Definition rm_rasters_append (name : string) : script W unit :=
  fun s => (Returned tt, mkState (session s) (rm_rasters s ++ [name]) (log s)).

Definition get_rm_rasters : script W (list string) :=
  fun s => (Returned (rm_rasters s), s).

(** *** Names and strings built by [main] *)

Definition temp_grow1 (population_raster : string) (pid : N) : string :=
  population_raster ++ "_grownbyone_" ++ str_of_pid pid.

Definition temp_grow2 (population_raster : string) (pid : N) : string :=
  population_raster ++ "_shrunkbyone_" ++ str_of_pid pid.

Definition pop_raster_new (pid : N) : string :=
  "pop_raster_temp_" ++ str_of_pid pid.

(** ["%s =if(isnull(%s), %s,%s)" % (a, b, c, d)] *)
Definition mapcalc_expression (a b c d : string) : string :=
  a ++ " =if(isnull(" ++ b ++ "), " ++ c ++ "," ++ d ++ ")".

Definition fatal_message : string :=
  gettext "The 'v.area.weigh' module was not found, install it first:"
  ++ newline ++ "g.extension v.area.weigh".

(** *** [cleanup] *)

Fixpoint remove_rasters (names : list string) : script W unit :=
  match names with
  | [] => ret tt
  | rmrast :: rest =>
      found <- grass_find_file rmrast "raster" ;;
      (if found then grass_run_command (g_remove_raster rmrast) else ret tt) ;;
      remove_rasters rest
  end.

Definition cleanup : script W unit :=
  names <- get_rm_rasters ;;
  remove_rasters names ;;
  found <- grass_find_file "MASK" "raster" ;;
  if found then try_except_pass (grass_run_command r_mask_remove) else ret tt.

(** *** [main] *)

Definition main (opts : options) (pid : N) : script W unit :=
  let admin_vector := population_vector opts in
  let column := population_column opts in
  let population_raster := population_raster opts in
  let dense := urban_vector opts in
  let output := output opts in
  found <- grass_find_program "v.area.weigh" "--help" ;;
  (if negb found then grass_fatal fatal_message else ret tt) ;;
  grass_run_command (r_mask_vector dense) ;;
  let temp_grow1 := temp_grow1 population_raster pid in
  rm_rasters_append temp_grow1 ;;
  let temp_grow2 := temp_grow2 population_raster pid in
  rm_rasters_append temp_grow2 ;;
  grass_run_command (r_grow population_raster temp_grow1 radius_grow) ;;
  grass_run_command (r_grow temp_grow1 temp_grow2 radius_shrink) ;;
  grass_run_command r_mask_remove ;;
  let pop_raster_new := pop_raster_new pid in
  rm_rasters_append pop_raster_new ;;
  grass_run_command
    (r_mapcalc (mapcalc_expression pop_raster_new population_raster
                                   temp_grow2 population_raster)) ;;
  grass_run_command (v_area_weigh admin_vector column pop_raster_new output) ;;
  grass_message (gettext ("Generated raster <" ++ output ++ ">")).

(** *** The [__main__] block

    [atexit.register(cleanup)] then [main()]: the interpreter runs
    [cleanup] when [main] has returned or raised.  The result pairs the
    outcome of [main] with the outcome of [cleanup]. *)

Definition start (w : W) : state W := mkState w [] [].

Definition program (opts : options) (pid : N) (w : W)
  : (outcome unit * outcome unit) * state W :=
  let (r_main, s1) := main opts pid (start w) in
  let (r_cleanup, s2) := cleanup s1 in
  ((r_main, r_cleanup), s2).

End Script.

(** ** Reference session: the map algebra of [r.mapcalc]

    Modelled from the spec: raster-algebra(expression) is a "cell-wise
    conditional/arithmetic expression evaluator producing a new raster".
    Only the fragment the script uses is modelled: map names, [isnull(x)]
    and [if(x,a,b)], in a statement [output = expression].  Anything else
    (operators, numerals, quoting) is rejected, which makes the module fail. *)
Module Mapcalc.

Inductive token : Type :=
| TName (s : string)
| TEq
| TLParen
| TRParen
| TComma.

Inductive expr : Type :=
| EMap (name : string)
| EIsNull (e : expr)
| EIf (c a b : expr).

Definition is_digit (c : ascii) : bool :=
  let n := nat_of_ascii c in (48 <=? n)%nat && (n <=? 57)%nat.

Definition is_letter (c : ascii) : bool :=
  let n := nat_of_ascii c in
  ((65 <=? n)%nat && (n <=? 90)%nat) || ((97 <=? n)%nat && (n <=? 122)%nat).

(** Characters of an unquoted map name. *)
Definition name_char (c : ascii) : bool :=
  is_letter c || is_digit c || Ascii.eqb c "_".

Definition is_space (c : ascii) : bool :=
  Ascii.eqb c " " || Ascii.eqb c (ascii_of_nat 9).

Definition punct (c : ascii) : option token :=
  if Ascii.eqb c "=" then Some TEq
  else if Ascii.eqb c "(" then Some TLParen
  else if Ascii.eqb c ")" then Some TRParen
  else if Ascii.eqb c "," then Some TComma
  else None.

Definition starts_name (s : string) : bool :=
  match s with
  | String c _ => name_char c
  | EmptyString => false
  end.

(** Tokens of a string, longest match for names; [None] on a character
    outside the fragment. *)
Fixpoint lex (s : string) : option (list token) :=
  match s with
  | EmptyString => Some []
  | String c rest =>
      match lex rest with
      | None => None
      | Some ts =>
          if name_char c then
            match ts with
            | TName t :: ts' =>
                if starts_name rest then Some (TName (String c t) :: ts')
                else Some (TName (String c EmptyString) :: ts)
            | _ => Some (TName (String c EmptyString) :: ts)
            end
          else if is_space c then Some ts
          else
            match punct c with
            | Some t => Some (t :: ts)
            | None => None
            end
      end
  end.

Definition starts_digit (s : string) : bool :=
  match s with
  | String c _ => is_digit c
  | EmptyString => false
  end.

Fixpoint parse_expr (fuel : nat) (ts : list token) : option (expr * list token) :=
  match fuel with
  | O => None
  | S fuel' =>
      match ts with
      | TName f :: TLParen :: ts1 =>
          if String.eqb f "isnull" then
            match parse_expr fuel' ts1 with
            | Some (e, TRParen :: ts2) => Some (EIsNull e, ts2)
            | _ => None
            end
          else if String.eqb f "if" then
            match parse_expr fuel' ts1 with
            | Some (c, TComma :: ts2) =>
                match parse_expr fuel' ts2 with
                | Some (a, TComma :: ts3) =>
                    match parse_expr fuel' ts3 with
                    | Some (b, TRParen :: ts4) => Some (EIf c a b, ts4)
                    | _ => None
                    end
                | _ => None
                end
            | _ => None
            end
          else None
      | TName n :: ts1 => if starts_digit n then None else Some (EMap n, ts1)
      | _ => None
      end
  end.

(** [output = expression] *)
Definition parse (s : string) : option (string * expr) :=
  match lex s with
  | Some (TName out :: TEq :: ts) =>
      if starts_digit out then None
      else
        match parse_expr (length ts) ts with
        | Some (e, []) => Some (out, e)
        | _ => None
        end
  | _ => None
  end.

(** Modelled from the spec: the cell-wise evaluator of raster-algebra.
    Value of an expression at one cell, given the value of each map
    there ([None] is nodata).  [isnull] yields 1 or 0; [if(x,a,b)] is
    nodata when [x] is, [b] when [x] is zero and [a] otherwise. *)
Fixpoint eval (env : string -> option Z) (e : expr) : option Z :=
  match e with
  | EMap n => env n
  | EIsNull e1 =>
      match eval env e1 with
      | None => Some 1%Z
      | Some _ => Some 0%Z
      end
  | EIf c a b =>
      match eval env c with
      | None => None
      | Some x => if (x =? 0)%Z then eval env b else eval env a
      end
  end.

Fixpoint maps_of (e : expr) : list string :=
  match e with
  | EMap n => [n]
  | EIsNull e1 => maps_of e1
  | EIf c a b => maps_of c ++ maps_of a ++ maps_of b
  end.

Fixpoint all_name_chars (s : string) : bool :=
  match s with
  | EmptyString => true
  | String c rest => name_char c && all_name_chars rest
  end.

(** A map name that needs no quoting in an expression. *)
Definition plain_name (s : string) : bool :=
  match s with
  | EmptyString => false
  | String c _ => negb (is_digit c) && all_name_chars s
  end.

End Mapcalc.

(** ** Reference session: region, rasters, MASK and the modules

    Modelled from the spec: the external operations of its section 6
    (mask-set, mask-clear, raster-grow, raster-algebra, area-weigh,
    raster-exists, raster-remove) and the Mask entity of its section 3.
    The session has one mapset and runs without overwrite permission, so a
    module whose output map exists fails.  A failing module leaves the
    session as it found it. *)
Module Session.

Definition cell : Type := (Z * Z)%type.

(** A raster gives each cell a value or nodata ([None]). *)
Definition raster : Type := cell -> option Z.

Record world : Type := mkWorld {
  nrows : Z;                                    (* computational region *)
  ncols : Z;
  rasters : string -> option raster;            (* raster maps of the mapset *)
  vectors : string -> option (cell -> bool);    (* vector maps: cells their areas cover *)
  installed : string -> bool;                   (* programs found on the path *)
  weigh : string -> string -> raster -> option raster;
                                                (* what v.area.weigh computes, [None] if it fails *)
  faulty : command -> bool                      (* module calls that fail in this session *)
}.

Definition in_region (w : world) (c : cell) : bool :=
  (0 <=? fst c)%Z && (fst c <? nrows w)%Z && (0 <=? snd c)%Z && (snd c <? ncols w)%Z.

Definition set_raster (w : world) (name : string) (r : raster) : world :=
  mkWorld (nrows w) (ncols w)
          (fun n => if String.eqb n name then Some r else rasters w n)
          (vectors w) (installed w) (weigh w) (faulty w).

Definition del_raster (w : world) (name : string) : world :=
  mkWorld (nrows w) (ncols w)
          (fun n => if String.eqb n name then None else rasters w n)
          (vectors w) (installed w) (weigh w) (faulty w).

Definition exists_raster (w : world) (name : string) : bool :=
  match rasters w name with
  | Some _ => true
  | None => false
  end.

(** Modelled from the spec: the Mask entity ("while active, all raster
    read/write operations ... are implicitly restricted to the masked
    footprint").  While a raster named MASK exists, a cell where MASK is
    nodata or zero reads as nodata in every raster. *)
Definition masked (w : world) (r : raster) : raster :=
  fun c =>
    match rasters w "MASK" with
    | None => r c
    | Some m =>
        match m c with
        | Some v => if (v =? 0)%Z then None else r c
        | None => None
        end
    end.

(** A raster as a module reads it: inside the region, through the MASK. *)
Definition read (w : world) (name : string) : option raster :=
  match rasters w name with
  | Some r => Some (fun c => if in_region w c then masked w r c else None)
  | None => None
  end.

(** Offsets of the cells within [radius] of a cell, the cell itself
    excluded (Euclidean metric). *)
Definition offsets (radius : Q) : list (Z * Z) :=
  let k := Qfloor (Qabs radius) in
  let span := map (fun i => (Z.of_nat i - k)%Z) (seq 0 (Z.to_nat (2 * k + 1))) in
  filter (fun d =>
            negb ((fst d =? 0)%Z && (snd d =? 0)%Z)
            && Qle_bool (inject_Z (fst d * fst d + snd d * snd d)) (radius * radius))
         (list_prod span span).

Definition neighbours (w : world) (radius : Q) (c : cell) : list cell :=
  filter (in_region w)
         (map (fun d => (fst c + fst d, snd c + snd d)%Z) (offsets radius)).

Fixpoint first_value (r : raster) (cs : list cell) : option Z :=
  match cs with
  | [] => None
  | c :: rest =>
      match r c with
      | Some v => Some v
      | None => first_value r rest
      end
  end.

Definition defined (r : raster) (c : cell) : bool :=
  match r c with
  | Some _ => true
  | None => false
  end.

(** Modelled from the spec: raster-grow(input, output, radius), "dilation
    by given radius (positive = outward, negative = inward/erosion)".
    With a radius of zero or more, a nodata cell takes the
    value of a cell with data within the radius; with a negative radius, a
    cell within the radius of a nodata cell becomes nodata.  Cells outside
    the region are not looked at. *)
Definition grow (w : world) (radius : Q) (r : raster) : raster :=
  fun c =>
    if in_region w c then
      if Qle_bool 0 radius then
        match r c with
        | Some v => Some v
        | None => first_value r (neighbours w radius c)
        end
      else
        match r c with
        | Some v => if forallb (defined r) (neighbours w radius c) then Some v else None
        | None => None
        end
    else None.

(** Modelled from the spec: mask-set(vector).  MASK is 1 on the cells the
    areas cover. *)
Definition mask_of (w : world) (cover : cell -> bool) : raster :=
  fun c => if in_region w c && cover c then Some 1%Z else None.

Fixpoint read_all (w : world) (names : list string) : bool :=
  match names with
  | [] => true
  | n :: rest => exists_raster w n && read_all w rest
  end.

Definition env_at (w : world) (c : cell) : string -> option Z :=
  fun n =>
    match read w n with
    | Some r => r c
    | None => None
    end.

Definition mapcalc (w : world) (e : Mapcalc.expr) : raster :=
  fun c => if in_region w c then Mapcalc.eval (env_at w c) e else None.

(** Modelled from the spec: the external operations, one case for each
    module the script calls.  The session after a module that succeeds;
    [None] when it fails. *)
Definition exec (c : command) (w : world) : option world :=
  if faulty w c then None
  else
    match c with
    | r_mask_vector v =>
        match rasters w "MASK", vectors w v with
        | None, Some cover => Some (set_raster w "MASK" (mask_of w cover))
        | _, _ => None
        end
    | r_mask_remove =>
        if exists_raster w "MASK" then Some (del_raster w "MASK") else None
    | r_grow input output radius =>
        match read w input, rasters w output with
        | Some r, None => Some (set_raster w output (grow w radius r))
        | _, _ => None
        end
    | r_mapcalc expression =>
        match Mapcalc.parse expression with
        | Some (out, e) =>
            if read_all w (Mapcalc.maps_of e) && negb (exists_raster w out)
            then Some (set_raster w out (mapcalc w e))
            else None
        | None => None
        end
    | v_area_weigh v column weight output =>
        if installed w "v.area.weigh" then
          match vectors w v, read w weight, rasters w output with
          | Some _, Some r, None =>
              match weigh w v column r with
              | Some out => Some (set_raster w output out)
              | None => None
              end
          | _, _, _ => None
          end
        else None
    | g_remove_raster name =>
        if exists_raster w name then Some (del_raster w name) else None
    end.

(** A raster as it reads inside the region while the MASK made from the
    cells [cover] selects is in place. *)
Definition through (w : world) (cover : cell -> bool) (r : raster) : raster :=
  fun c => if in_region w c && cover c then r c else None.

(** The cell has data, or a cell next to it has (all read through [cover]). *)
Definition near_data (w : world) (cover : cell -> bool) (r : raster) (c : cell) : bool :=
  defined (through w cover r) c
  || existsb (defined (through w cover r)) (neighbours w radius_grow c).

Definition run (c : command) (w : world) : world * bool :=
  match exec c w with
  | Some w' => (w', true)
  | None => (w, false)
  end.

Definition find (name element : string) (w : world) : bool :=
  if String.eqb element "raster" then exists_raster w name
  else if String.eqb element "vector" then
    match vectors w name with
    | Some _ => true
    | None => false
    end
  else false.

#[export] Instance grass_world : Grass world := {
  find_program := fun pgm _ w => installed w pgm;
  find_file := find;
  run_module := run;
  gettext := fun s => s
}.

End Session.

(** ** Vocabulary for the statements *)

Section Runs.
Context {W : Type} `{Grass W}.

Definition main_result (opts : options) (pid : N) (w : W) : outcome unit :=
  fst (main opts pid (start w)).

(** State when [main] has returned or raised, before [cleanup] runs. *)
Definition main_state (opts : options) (pid : N) (w : W) : state W :=
  snd (main opts pid (start w)).

Definition cleanup_result (opts : options) (pid : N) (w : W) : outcome unit :=
  snd (fst (program opts pid w)).

(** State when the interpreter has exited. *)
Definition final_state (opts : options) (pid : N) (w : W) : state W :=
  snd (program opts pid w).

(** All the commands of [cs] exit with status zero, one after the other,
    and take the session from [w] to [w']. *)
Fixpoint succeeded (cs : list command) (w w' : W) : Prop :=
  match cs with
  | [] => w' = w
  | c :: rest => exists w1, run_module c w = (w1, true) /\ succeeded rest w1 w'
  end.

End Runs.

Definition commands_of (l : list event) : list command :=
  flat_map (fun e => match e with EvRun c => [c] | _ => [] end) l.

(** The three names [main] appends to [rm_rasters]. *)
Definition intermediates (opts : options) (pid : N) : list string :=
  [temp_grow1 (population_raster opts) pid;
   temp_grow2 (population_raster opts) pid;
   pop_raster_new pid].

(** The module calls of [main] in source order: the five that build the
    weighting raster, then the weighting itself. *)
Definition merge_command (opts : options) (pid : N) : command :=
  r_mapcalc (mapcalc_expression (pop_raster_new pid) (population_raster opts)
               (temp_grow2 (population_raster opts) pid) (population_raster opts)).

Definition weigh_command (opts : options) (pid : N) : command :=
  v_area_weigh (population_vector opts) (population_column opts)
               (pop_raster_new pid) (output opts).

Definition builder_commands (opts : options) (pid : N) : list command :=
  [r_mask_vector (urban_vector opts);
   r_grow (population_raster opts) (temp_grow1 (population_raster opts) pid) radius_grow;
   r_grow (temp_grow1 (population_raster opts) pid)
          (temp_grow2 (population_raster opts) pid) radius_shrink;
   r_mask_remove;
   merge_command opts pid].

Definition main_commands (opts : options) (pid : N) : list command :=
  builder_commands opts pid ++ [weigh_command opts pid].

(** Names in [rm_rasters] when the [k]-th module call of [main] (from 0)
    is issued. *)
Definition registered (opts : options) (pid : N) (k : nat) : list string :=
  match k with
  | O => []
  | 1%nat | 2%nat | 3%nat => firstn 2 (intermediates opts pid)
  | _ => intermediates opts pid
  end.

Definition is_weigh (e : event) : bool :=
  match e with
  | EvRun (v_area_weigh _ _ _ _) => true
  | _ => false
  end.

(** The run got as far as calling [v.area.weigh]. *)
Definition reached_weigh (l : list event) : bool := existsb is_weigh l.

Definition with_column (opts : options) (column : string) : options :=
  mkOptions (population_vector opts) column (population_raster opts)
            (output opts) (urban_vector opts).

(** The ways [main] can end. *)
Inductive main_run {W : Type} `{Grass W} (opts : options) (pid : N) (w : W)
  : outcome unit -> state W -> Prop :=
| MainNoProgram :
    find_program "v.area.weigh" "--help" w = false ->
    main_run opts pid w (Raised (SystemExit 1))
      (mkState w [] [EvFindProgram "v.area.weigh" "--help"; EvFatal fatal_message])
| MainFailed (k : nat) (c : command) (wk w' : W) :
    find_program "v.area.weigh" "--help" w = true ->
    succeeded (firstn k (main_commands opts pid)) w wk ->
    nth_error (main_commands opts pid) k = Some c ->
    run_module c wk = (w', false) ->
    main_run opts pid w (Raised (CalledModuleError c))
      (mkState w' (registered opts pid k)
         (EvFindProgram "v.area.weigh" "--help"
            :: map EvRun (firstn (S k) (main_commands opts pid))))
| MainDone (w' : W) :
    find_program "v.area.weigh" "--help" w = true ->
    succeeded (main_commands opts pid) w w' ->
    main_run opts pid w (Returned tt)
      (mkState w' (intermediates opts pid)
         (EvFindProgram "v.area.weigh" "--help"
            :: map EvRun (main_commands opts pid)
            ++ [EvMessage (gettext ("Generated raster <" ++ output opts ++ ">"))])).

(** Every event is an existence check or a removal that comes right after
    the existence check of what it removes: [g.remove] of a raster after the
    check of that raster, the mask release after the check of MASK. *)
Fixpoint guarded (l : list event) : bool :=
  match l with
  | [] => true
  | EvFindFile n element :: rest =>
      match rest with
      | EvRun c :: rest' =>
          match c with
          | g_remove_raster m => String.eqb m n && String.eqb element "raster"
          | r_mask_remove => String.eqb n "MASK" && String.eqb element "raster"
          | _ => false
          end && guarded rest'
      | _ => guarded rest
      end
  | _ => false
  end.

(** ** Sample sessions

    A region of three rows and three columns with a population raster
    [pop], urban areas [urban] and administrative areas [admin]. *)

Definition town_options : options :=
  mkOptions "admin" "inhabitants" "pop" "out" "urban".

Definition no_column_options : options :=
  mkOptions "admin" "" "pop" "out" "urban".

(** Two cells with data in the middle row, a nodata cell between them. *)
Definition gap_raster : Session.raster :=
  fun c =>
    match c with
    | (1, 0)%Z => Some 5%Z
    | (1, 2)%Z => Some 7%Z
    | _ => None
    end.

(** Data everywhere but at the centre cell. *)
Definition ring_raster : Session.raster :=
  fun c =>
    match c with
    | (1, 1)%Z => None
    | _ => Some 3%Z
    end.

Definition sample_session (pop : Session.raster) (urban : Session.cell -> bool)
           (addon : bool) (faults : command -> bool) : Session.world :=
  Session.mkWorld 3 3
    (fun n => if String.eqb n "pop" then Some pop else None)
    (fun n => if String.eqb n "urban" then Some urban
              else if String.eqb n "admin" then Some (fun _ => true)
              else None)
    (fun pgm => addon && String.eqb pgm "v.area.weigh")
    (fun _ column weight => if String.eqb column "" then None else Some weight)
    faults.

Definition everywhere : Session.cell -> bool := fun _ => true.
Definition nowhere : Session.cell -> bool := fun _ => false.
Definition no_faults : command -> bool := fun _ => false.

Definition gap_session : Session.world :=
  sample_session gap_raster everywhere true no_faults.

Definition ring_session : Session.world :=
  sample_session ring_raster everywhere true no_faults.

(** Urban areas that cover no cell. *)
Definition rural_session : Session.world :=
  sample_session gap_raster nowhere true no_faults.

(** The add-on is not installed. *)
Definition bare_session : Session.world :=
  sample_session gap_raster everywhere false no_faults.

(** A mapset in which [g.remove] fails. *)
Definition readonly_session : Session.world :=
  sample_session gap_raster everywhere true
    (fun c => match c with g_remove_raster _ => true | _ => false end).

(** [r.grow] fails and so does the release of the mask. *)
Definition stuck_mask_session : Session.world :=
  sample_session gap_raster everywhere true
    (fun c => match c with r_grow _ _ _ => true | r_mask_remove => true | _ => false end).

(** A mask is set when the run starts. *)
Definition masked_session : Session.world :=
  Session.set_raster gap_session "MASK" (fun _ => Some 1%Z).

(** The name of the grown raster of process 77 is taken when the run starts. *)
Definition occupied_session : Session.world :=
  Session.set_raster gap_session "pop_grownbyone_77" ring_raster.

(** The output is to be called MASK. *)
Definition mask_output_options : options :=
  mkOptions "admin" "inhabitants" "pop" "MASK" "urban".

(** The shrink fails, and so does every [g.remove]; the release of the mask
    works. *)
Definition failing_removal_session : Session.world :=
  sample_session gap_raster everywhere true
    (fun c =>
       match c with
       | g_remove_raster _ => true
       | r_grow input _ _ => String.eqb input "pop_grownbyone_77"
       | _ => false
       end).

(** The output is to be called like the merged raster of process 77. *)
Definition temp_output_options : options :=
  mkOptions "admin" "inhabitants" "pop" "pop_raster_temp_77" "urban".

(** ** The script over any session *)

Section ScriptFacts.
Context {W : Type} `{Grass W}.

Ltac run_next :=
  match goal with
  | |- context [run_module ?c ?w] =>
      let w' := fresh "w" in
      let E := fresh "E" in
      destruct (run_module c w) as [w' []] eqn:E
  end;
  cbn [fst snd session rm_rasters log app] in *.

Ltac chain := cbn [firstn main_commands builder_commands app succeeded];
  repeat (eexists; split; [eassumption |]); reflexivity.

Lemma main_run_spec (opts : options) (pid : N) (w : W) :
  main_run opts pid w (main_result opts pid w) (main_state opts pid w).
Proof.
  unfold main_result, main_state, main, bind, grass_find_program, grass_run_command,
    rm_rasters_append, grass_message, grass_fatal, ret, emit, start.
  cbn [session rm_rasters log fst snd app negb].
  destruct (find_program "v.area.weigh" "--help" w) eqn:Efound; cbn [negb fst snd].
  2: { apply MainNoProgram. exact Efound. }
  run_next.
  2: { eapply (MainFailed opts pid w 0); [exact Efound | chain | reflexivity | eassumption]. }
  run_next.
  2: { eapply (MainFailed opts pid w 1); [exact Efound | chain | reflexivity | eassumption]. }
  run_next.
  2: { eapply (MainFailed opts pid w 2); [exact Efound | chain | reflexivity | eassumption]. }
  run_next.
  2: { eapply (MainFailed opts pid w 3); [exact Efound | chain | reflexivity | eassumption]. }
  run_next.
  2: { eapply (MainFailed opts pid w 4); [exact Efound | chain | reflexivity | eassumption]. }
  run_next.
  2: { eapply (MainFailed opts pid w 5); [exact Efound | chain | reflexivity | eassumption]. }
  apply MainDone; [exact Efound | chain].
Qed.

(** *** What [cleanup] does, whatever the session *)

Lemma remove_rasters_outcome (names : list string) (s : state W) :
  fst (remove_rasters names s) = Returned tt
  \/ exists name, In name names
       /\ fst (remove_rasters names s) = Raised (CalledModuleError (g_remove_raster name)).
Proof.
  revert s. induction names as [| rmrast rest IH]; intros s.
  - left. reflexivity.
  - cbn [remove_rasters]. unfold bind, grass_find_file, grass_run_command, ret.
    cbn [fst snd session].
    destruct (find_file rmrast "raster" (session s)).
    + destruct (run_module (g_remove_raster rmrast) (session (emit _ s))) as [w' []].
      * destruct (IH (mkState w' (rm_rasters (emit (EvFindFile rmrast "raster") s))
                        (log (emit (EvFindFile rmrast "raster") s)
                           ++ [EvRun (g_remove_raster rmrast)]))) as [Hok | [n [Hin Hn]]].
        -- left. exact Hok.
        -- right. exists n. split; [right; exact Hin | exact Hn].
      * right. exists rmrast. split; [left; reflexivity | reflexivity].
    + destruct (IH (emit (EvFindFile rmrast "raster") s)) as [Hok | [n [Hin Hn]]].
      * left. exact Hok.
      * right. exists n. split; [right; exact Hin | exact Hn].
Qed.

Lemma remove_rasters_keeps_list (names : list string) (s : state W) :
  rm_rasters (snd (remove_rasters names s)) = rm_rasters s.
Proof.
  revert s. induction names as [| rmrast rest IH]; intros s.
  - reflexivity.
  - cbn [remove_rasters]. unfold bind, grass_find_file, grass_run_command, ret.
    cbn [fst snd session].
    destruct (find_file rmrast "raster" (session s)).
    + destruct (run_module (g_remove_raster rmrast) (session (emit _ s))) as [w' []].
      * rewrite IH. reflexivity.
      * reflexivity.
    + rewrite IH. reflexivity.
Qed.

(** The events [remove_rasters] adds are existence checks and [g.remove]
    calls on names of its list. *)
Lemma remove_rasters_log (names : list string) (s : state W) :
  exists added,
    log (snd (remove_rasters names s)) = log s ++ added
    /\ forall c, In (EvRun c) added ->
                 exists name, In name names /\ c = g_remove_raster name.
Proof.
  revert s. induction names as [| rmrast rest IH]; intros s.
  - exists []. split; [cbn; rewrite app_nil_r; reflexivity | intros c []].
  - cbn [remove_rasters]. unfold bind, grass_find_file, grass_run_command, ret.
    cbn [fst snd session].
    destruct (find_file rmrast "raster" (session s)).
    + destruct (run_module (g_remove_raster rmrast) (session (emit _ s))) as [w' []].
      * match goal with |- context [remove_rasters rest ?s1] =>
          destruct (IH s1) as [added [Hlog Hcmds]] end.
        exists (EvFindFile rmrast "raster" :: EvRun (g_remove_raster rmrast) :: added).
        split.
        -- rewrite Hlog. cbn [log emit]. rewrite <- !app_assoc. reflexivity.
        -- intros c [Hc | [Hc | Hc]]; [discriminate | |].
           ++ injection Hc as <-. exists rmrast. split; [left; reflexivity | reflexivity].
           ++ destruct (Hcmds c Hc) as [n [Hin ->]]. exists n. split; [right; exact Hin | reflexivity].
      * exists [EvFindFile rmrast "raster"; EvRun (g_remove_raster rmrast)].
        split.
        -- cbn [snd log emit]. rewrite <- app_assoc. reflexivity.
        -- intros c [Hc | [Hc | []]]; [discriminate |].
           injection Hc as <-. exists rmrast. split; [left; reflexivity | reflexivity].
    + destruct (IH (emit (EvFindFile rmrast "raster") s)) as [added [Hlog Hcmds]].
      exists (EvFindFile rmrast "raster" :: added).
      split.
      * rewrite Hlog. cbn [log emit]. rewrite <- app_assoc. reflexivity.
      * intros c [Hc | Hc]; [discriminate |].
        destruct (Hcmds c Hc) as [n [Hin ->]]. exists n. split; [right; exact Hin | reflexivity].
Qed.

Lemma cleanup_log (s : state W) :
  exists added,
    log (snd (cleanup s)) = log s ++ added
    /\ forall c, In (EvRun c) added ->
                 c = r_mask_remove
                 \/ exists name, In name (rm_rasters s) /\ c = g_remove_raster name.
Proof.
  unfold cleanup, bind, get_rm_rasters. cbn [fst snd].
  destruct (remove_rasters_log (rm_rasters s) s) as [added [Hlog Hcmds]].
  destruct (remove_rasters (rm_rasters s) s) as [[[] | e] s1] eqn:Erm; cbn [snd] in Hlog.
  - unfold grass_find_file, try_except_pass, grass_run_command, ret. cbn [fst snd session].
    destruct (find_file "MASK" "raster" (session s1)).
    + destruct (run_module r_mask_remove (session (emit _ s1))) as [w' []]; cbn [snd log emit];
        exists (added ++ [EvFindFile "MASK" "raster"; EvRun r_mask_remove]);
        (split; [rewrite Hlog, <- !app_assoc; reflexivity |]);
        intros c Hc; apply in_app_or in Hc; destruct Hc as [Hc | [Hc | [Hc | []]]];
        try discriminate; try (right; apply Hcmds; exact Hc);
        injection Hc as <-; left; reflexivity.
    + cbn [snd log emit]. exists (added ++ [EvFindFile "MASK" "raster"]).
      split; [rewrite Hlog, <- !app_assoc; reflexivity |].
      intros c Hc. apply in_app_or in Hc. destruct Hc as [Hc | [Hc | []]];
        [right; apply Hcmds; exact Hc | discriminate].
  - cbn [snd]. exists added. split; [exact Hlog |].
    intros c Hc. right. apply Hcmds. exact Hc.
Qed.

Lemma final_state_eq (opts : options) (pid : N) (w : W) :
  final_state opts pid w = snd (cleanup (main_state opts pid w)).
Proof.
  unfold final_state, program, main_state.
  destruct (main opts pid (start w)) as [r s1]. cbn [snd].
  destruct (cleanup s1) as [r2 s2]. reflexivity.
Qed.

Lemma cleanup_result_eq (opts : options) (pid : N) (w : W) :
  cleanup_result opts pid w = fst (cleanup (main_state opts pid w)).
Proof.
  unfold cleanup_result, program, main_state.
  destruct (main opts pid (start w)) as [r s1]. cbn [snd].
  destruct (cleanup s1) as [r2 s2]. reflexivity.
Qed.

(** *** The weighting step is reached exactly when the builder succeeds *)

Lemma builder_reaches_weigh (opts : options) (pid : N) (w w5 : W) :
  find_program "v.area.weigh" "--help" w = true ->
  succeeded (builder_commands opts pid) w w5 ->
  reached_weigh (log (main_state opts pid w)) = true
  /\ session (main_state opts pid w) = fst (run_module (weigh_command opts pid) w5).
Proof.
  intros Hfound (w1 & E1 & w2 & E2 & w3 & E3 & w4 & E4 & w5' & E5 & ->).
  unfold merge_command in E5.
  unfold main_state, main, bind, grass_find_program, grass_run_command,
    rm_rasters_append, grass_message, grass_fatal, ret, emit, start, weigh_command.
  cbn [session rm_rasters log fst snd app negb].
  rewrite Hfound. cbn [negb fst snd session rm_rasters log app].
  rewrite E1. cbn [fst snd session rm_rasters log app].
  rewrite E2. cbn [fst snd session rm_rasters log app].
  rewrite E3. cbn [fst snd session rm_rasters log app].
  rewrite E4. cbn [fst snd session rm_rasters log app].
  rewrite E5. cbn [fst snd session rm_rasters log app].
  destruct (run_module (v_area_weigh _ _ _ _) w5') as [w6 []];
    cbn [fst snd session rm_rasters log app]; split; reflexivity.
Qed.

Lemma reached_weigh_inv (opts : options) (pid : N) (w : W) :
  reached_weigh (log (main_state opts pid w)) = true ->
  exists w5, find_program "v.area.weigh" "--help" w = true
             /\ succeeded (builder_commands opts pid) w w5
             /\ session (main_state opts pid w)
                = fst (run_module (weigh_command opts pid) w5).
Proof.
  intros Hreach.
  pose proof (main_run_spec opts pid w) as Hrun.
  inversion Hrun as [Hf Hr Hs | k c wk w' Hf Hchain Hnth Hfail Hr Hs | w' Hf Hchain Hr Hs];
    rewrite <- Hs in Hreach; cbn [log session] in *.
  - discriminate Hreach.
  - do 5 (destruct k as [| k]; [discriminate Hreach |]).
    destruct k as [| k]; [| destruct k; discriminate Hnth].
    injection Hnth as <-. exists wk. split; [exact Hf | split; [exact Hchain |]].
    rewrite Hfail. reflexivity.
  - cbn [main_commands builder_commands app succeeded] in Hchain.
    destruct Hchain as (w1 & E1 & w2 & E2 & w3 & E3 & w4 & E4 & w5 & E5 & w6 & E6 & ->).
    exists w5. split; [exact Hf | split].
    + cbn [builder_commands succeeded]. eauto 12.
    + rewrite E6. reflexivity.
Qed.

(** *** Claims about the order and content of the calls *)

(** C1. When [v.area.weigh] is not installed, [main] ends by [grass.fatal]
    (exit status 1): the only events are the installation check and the
    fatal message, which ends with the instruction
    [g.extension v.area.weigh]; no module was called, so the session is the
    one [main] started from, and the only module [cleanup] may call
    afterwards is the release of a mask that was already there. *)
Theorem missing_program_fails_fast (opts : options) (pid : N) (w : W) :
  find_program "v.area.weigh" "--help" w = false ->
  main_result opts pid w = Raised (SystemExit 1)
  /\ log (main_state opts pid w)
     = [EvFindProgram "v.area.weigh" "--help"; EvFatal fatal_message]
  /\ (exists text, fatal_message = (text ++ newline ++ "g.extension v.area.weigh")%string)
  /\ session (main_state opts pid w) = w
  /\ rm_rasters (main_state opts pid w) = []
  /\ (forall c, In (EvRun c) (log (final_state opts pid w)) -> c = r_mask_remove).
Proof.
  intros Hmissing.
  pose proof (main_run_spec opts pid w) as Hrun.
  inversion Hrun as [Hf Hr Hs | k c wk w' Hf | w' Hf]; try congruence.
  repeat split.
  - exists (gettext "The 'v.area.weigh' module was not found, install it first:").
    reflexivity.
  - intros c Hc. rewrite final_state_eq, <- Hs in Hc.
    destruct (cleanup_log (mkState w [] [EvFindProgram "v.area.weigh" "--help";
                                         EvFatal fatal_message]))
      as [added [Hlog Hcmds]].
    rewrite Hlog in Hc. cbn [log] in Hc.
    apply in_app_or in Hc. destruct Hc as [Hc | Hc].
    + destruct Hc as [Hc | [Hc | []]]; discriminate.
    + destruct (Hcmds c Hc) as [-> | [n [[] _]]]. reflexivity.
Qed.

(** C2. In every run of [main] that gets to the weighting step, the modules
    called are exactly these six, in this order and with nothing between
    them: mask set to the urban vector, grow by 1.01, grow of the result by
    -1.01, mask release, the map-algebra merge, [v.area.weigh]. *)
Theorem main_command_order (opts : options) (pid : N) (w : W) :
  reached_weigh (log (main_state opts pid w)) = true ->
  commands_of (log (main_state opts pid w))
  = [r_mask_vector (urban_vector opts);
     r_grow (population_raster opts) (temp_grow1 (population_raster opts) pid) (101 # 100);
     r_grow (temp_grow1 (population_raster opts) pid)
            (temp_grow2 (population_raster opts) pid) (- (101 # 100));
     r_mask_remove;
     r_mapcalc (mapcalc_expression (pop_raster_new pid) (population_raster opts)
                  (temp_grow2 (population_raster opts) pid) (population_raster opts));
     v_area_weigh (population_vector opts) (population_column opts)
                  (pop_raster_new pid) (output opts)].
Proof.
  intros Hreach.
  pose proof (main_run_spec opts pid w) as Hrun.
  inversion Hrun as [Hf Hr Hs | k c wk w' Hf Hchain Hnth Hfail Hr Hs | w' Hf Hchain Hr Hs];
    rewrite <- Hs in Hreach; cbn [log] in *.
  - discriminate Hreach.
  - do 6 (destruct k as [| k]; [try discriminate Hreach; try reflexivity |]).
    destruct k; discriminate Hnth.
  - reflexivity.
Qed.

(** C10. [main] does nothing with the [population_column] option but pass
    it on: a [v.area.weigh] call carries the option's value as it is, what
    happens before that call and whether the call is made are the same for
    every value of the option (the empty string of an option not supplied
    included), and once the call is made the only error [main] can end with
    is the failure of that call. *)
Theorem column_passed_verbatim (opts : options) (pid : N) (w : W) :
  (forall v column weight out,
      In (EvRun (v_area_weigh v column weight out)) (log (main_state opts pid w)) ->
      column = population_column opts)
  /\ (forall column,
        firstn 6 (log (main_state (with_column opts column) pid w))
        = firstn 6 (log (main_state opts pid w))
        /\ reached_weigh (log (main_state (with_column opts column) pid w))
           = reached_weigh (log (main_state opts pid w)))
  /\ (reached_weigh (log (main_state opts pid w)) = true ->
      In (EvRun (weigh_command opts pid)) (log (main_state opts pid w))
      /\ (main_result opts pid w = Returned tt
          \/ main_result opts pid w = Raised (CalledModuleError (weigh_command opts pid)))).
Proof.
  split; [| split].
  - intros v column weight out Hin.
    pose proof (main_run_spec opts pid w) as Hrun.
    inversion Hrun as [Hf Hr Hs | k c wk w' Hf Hchain Hnth Hfail Hr Hs | w' Hf Hchain Hr Hs];
      rewrite <- Hs in Hin; cbn [log] in Hin.
    + destruct Hin as [Hin | [Hin | []]]; discriminate.
    + destruct Hin as [Hin | Hin]; [discriminate |].
      do 6 (destruct k as [| k];
            [cbn in Hin; repeat (destruct Hin as [Hin | Hin]; try discriminate);
             try contradiction; try (injection Hin; congruence) |]).
      destruct k; discriminate Hnth.
    + destruct Hin as [Hin | Hin]; [discriminate |].
      cbn in Hin. repeat (destruct Hin as [Hin | Hin]; try discriminate);
        try contradiction; injection Hin; congruence.
  - intros column.
    unfold main_state, main, bind, grass_find_program, grass_run_command,
      rm_rasters_append, grass_message, grass_fatal, ret, emit, start.
    cbn [session rm_rasters log fst snd app negb with_column
         population_vector population_column population_raster output urban_vector].
    destruct (find_program "v.area.weigh" "--help" w); cbn [negb fst snd];
      [| split; reflexivity].
    do 5 (run_next; [| split; reflexivity]).
    destruct (run_module (v_area_weigh _ column _ _) w4) as [wa []];
      destruct (run_module (v_area_weigh _ (population_column opts) _ _) w4) as [wb []];
      split; reflexivity.
  - intros Hreach.
    pose proof (main_run_spec opts pid w) as Hrun.
    inversion Hrun as [Hf Hr Hs | k c wk w' Hf Hchain Hnth Hfail Hr Hs | w' Hf Hchain Hr Hs];
      rewrite <- Hs in Hreach; cbn [log] in *.
    + discriminate Hreach.
    + do 5 (destruct k as [| k]; [discriminate Hreach |]).
      destruct k as [| k]; [| destruct k; discriminate Hnth].
      injection Hnth as <-. split; [| right; reflexivity].
      cbn. tauto.
    + split; [| left; reflexivity]. cbn. tauto.
Qed.

End ScriptFacts.

(** ** The map algebra: the merge expression is read as intended *)

Section MapcalcFacts.
Import Mapcalc.

Lemma all_name_chars_app (a b : string) :
  all_name_chars (a ++ b) = all_name_chars a && all_name_chars b.
Proof.
  induction a as [| c a IH]; cbn [String.append all_name_chars].
  - reflexivity.
  - rewrite IH. apply andb_assoc.
Qed.

Lemma string_of_uint_digits (d : Decimal.uint) :
  all_name_chars (NilEmpty.string_of_uint d) = true.
Proof.
  induction d; cbn [NilEmpty.string_of_uint all_name_chars]; try rewrite IHd; reflexivity.
Qed.

Lemma str_of_pid_digits (pid : N) : all_name_chars (str_of_pid pid) = true.
Proof.
  unfold str_of_pid, NilZero.string_of_uint.
  destruct (N.to_uint pid) eqn:E; try reflexivity;
    rewrite <- E; apply string_of_uint_digits.
Qed.

Lemma plain_name_chars (s : string) : plain_name s = true -> all_name_chars s = true.
Proof.
  destruct s as [| c s]; cbn [plain_name]; [discriminate |].
  intros Hp. apply andb_true_iff in Hp. apply Hp.
Qed.

Lemma plain_name_app (s t : string) :
  plain_name s = true -> all_name_chars t = true -> plain_name (s ++ t) = true.
Proof.
  destruct s as [| c s]; cbn [plain_name]; [discriminate |].
  intros Hp Ht. apply andb_true_iff in Hp. destruct Hp as [Hd Hs].
  cbn [String.append plain_name]. rewrite Hd. cbn [negb andb].
  change (String c (s ++ t)) with (String c s ++ t)%string.
  rewrite all_name_chars_app, Hs, Ht. reflexivity.
Qed.

Lemma plain_temp_grow1 (p : string) (pid : N) :
  plain_name p = true -> plain_name (temp_grow1 p pid) = true.
Proof.
  intros Hp. unfold temp_grow1. apply plain_name_app; [exact Hp |].
  rewrite all_name_chars_app, str_of_pid_digits. reflexivity.
Qed.

Lemma plain_temp_grow2 (p : string) (pid : N) :
  plain_name p = true -> plain_name (temp_grow2 p pid) = true.
Proof.
  intros Hp. unfold temp_grow2. apply plain_name_app; [exact Hp |].
  rewrite all_name_chars_app, str_of_pid_digits. reflexivity.
Qed.

Lemma plain_pop_raster_new (pid : N) : plain_name (pop_raster_new pid) = true.
Proof.
  unfold pop_raster_new. apply plain_name_app; [reflexivity | apply str_of_pid_digits].
Qed.

(** A run of name characters followed by something that does not start a
    name is one token. *)
Lemma lex_name (n rest : string) :
  n <> EmptyString -> all_name_chars n = true -> starts_name rest = false ->
  lex (n ++ rest) = option_map (cons (TName n)) (lex rest).
Proof.
  intros Hne Hn Hrest. induction n as [| c n IH]; [congruence |].
  cbn [all_name_chars] in Hn. apply andb_true_iff in Hn. destruct Hn as [Hc Hn].
  destruct n as [| c' n].
  - cbn [String.append lex]. destruct (lex rest) as [ts |]; [| reflexivity].
    rewrite Hc, Hrest. cbn [option_map].
    destruct ts as [| [] ts]; reflexivity.
  - change (lex (String c (String c' n ++ rest))
            = option_map (cons (TName (String c (String c' n)))) (lex rest)).
    cbn [lex]. fold (lex (String c' n ++ rest)).
    rewrite (IH ltac:(discriminate) Hn).
    destruct (lex rest) as [ts |]; [| reflexivity].
    cbn [option_map]. rewrite Hc.
    cbn [String.append starts_name]. cbn [all_name_chars] in Hn.
    apply andb_true_iff in Hn. destruct Hn as [Hc' _]. rewrite Hc'. reflexivity.
Qed.

Lemma plain_not_digit (s : string) : plain_name s = true -> starts_digit s = false.
Proof.
  destruct s as [| c s]; cbn [plain_name starts_digit]; [discriminate |].
  intros Hp. apply andb_true_iff in Hp. destruct Hp as [Hd _].
  apply negb_true_iff. exact Hd.
Qed.

Lemma plain_nonempty (s : string) : plain_name s = true -> s <> EmptyString.
Proof. destruct s; [discriminate | discriminate]. Qed.

Lemma parse_expr_name (fuel : nat) (n : string) (rest : list token) :
  starts_digit n = false ->
  match rest with TLParen :: _ => False | _ => True end ->
  parse_expr (S fuel) (TName n :: rest) = Some (EMap n, rest).
Proof.
  intros Hn Hrest. cbn [parse_expr].
  destruct rest as [| [] rest]; try contradiction; rewrite Hn; reflexivity.
Qed.

Lemma parse_expr_isnull (fuel : nat) (ts rest : list token) (e : expr) :
  parse_expr fuel ts = Some (e, TRParen :: rest) ->
  parse_expr (S fuel) (TName "isnull" :: TLParen :: ts) = Some (EIsNull e, rest).
Proof. intros He. cbn [parse_expr]. rewrite He. reflexivity. Qed.

Lemma parse_expr_if (fuel : nat) (ts ts2 ts3 rest : list token) (c a b : expr) :
  parse_expr fuel ts = Some (c, TComma :: ts2) ->
  parse_expr fuel ts2 = Some (a, TComma :: ts3) ->
  parse_expr fuel ts3 = Some (b, TRParen :: rest) ->
  parse_expr (S fuel) (TName "if" :: TLParen :: ts) = Some (EIf c a b, rest).
Proof. intros Hc Ha Hb. cbn [parse_expr]. rewrite Hc, Ha, Hb. reflexivity. Qed.

(** The string [main] builds is read as the statement
    [a = if(isnull(b), c, d)]. *)
Lemma parse_mapcalc_expression (a b c d : string) :
  plain_name a = true -> plain_name b = true ->
  plain_name c = true -> plain_name d = true ->
  parse (mapcalc_expression a b c d)
  = Some (a, EIf (EIsNull (EMap b)) (EMap c) (EMap d)).
Proof.
  intros Ha Hb Hc Hd.
  assert (Hlex : lex (mapcalc_expression a b c d)
                 = Some [TName a; TEq; TName "if"; TLParen; TName "isnull"; TLParen;
                         TName b; TRParen; TComma; TName c; TComma; TName d; TRParen]).
  { unfold mapcalc_expression.
    assert (Hd' : lex (d ++ ")") = Some [TName d; TRParen]).
    { rewrite (lex_name d); [reflexivity | apply plain_nonempty, Hd
                             | apply plain_name_chars, Hd | reflexivity]. }
    assert (Hc' : lex (c ++ "," ++ d ++ ")")
                  = Some [TName c; TComma; TName d; TRParen]).
    { rewrite (lex_name c); [| apply plain_nonempty, Hc | apply plain_name_chars, Hc
                             | reflexivity].
      cbn [String.append lex]. rewrite Hd'. reflexivity. }
    assert (Hb' : lex (b ++ "), " ++ c ++ "," ++ d ++ ")")
                  = Some [TName b; TRParen; TComma; TName c; TComma; TName d; TRParen]).
    { rewrite (lex_name b); [| apply plain_nonempty, Hb | apply plain_name_chars, Hb
                             | reflexivity].
      cbn [String.append lex] in Hc' |- *. rewrite Hc'. reflexivity. }
    rewrite (lex_name a); [| apply plain_nonempty, Ha | apply plain_name_chars, Ha | reflexivity].
    cbn [String.append lex] in Hb' |- *. rewrite Hb'. reflexivity. }
  unfold parse. rewrite Hlex, (plain_not_digit a Ha).
  cbn [length].
  rewrite (parse_expr_if 10 _ [TName c; TComma; TName d; TRParen] [TName d; TRParen] []
             (EIsNull (EMap b)) (EMap c) (EMap d)).
  - reflexivity.
  - apply parse_expr_isnull. apply parse_expr_name; [apply plain_not_digit, Hb | exact I].
  - apply parse_expr_name; [apply plain_not_digit, Hc | exact I].
  - apply parse_expr_name; [apply plain_not_digit, Hd | exact I].
Qed.

(** Whatever the operands are, a statement the parser accepts assigns to
    the name in front of the equals sign. *)
Lemma lex_assign (a rest : string) :
  plain_name a = true ->
  lex (a ++ String " " (String "=" rest))
  = option_map (fun ts => TName a :: TEq :: ts) (lex rest).
Proof.
  intros Ha.
  rewrite (lex_name a); [| apply plain_nonempty, Ha | apply plain_name_chars, Ha
                         | reflexivity].
  cbn [lex]. destruct (lex rest) as [ts |]; reflexivity.
Qed.

Lemma parse_output_name (a b c d out : string) (e : expr) :
  plain_name a = true ->
  parse (mapcalc_expression a b c d) = Some (out, e) -> out = a.
Proof.
  intros Ha. unfold parse, mapcalc_expression.
  cbn [String.append]. rewrite (lex_assign a _ Ha).
  match goal with |- context [lex ?r] => destruct (lex r) as [ts |] end;
    cbn [option_map]; [| discriminate].
  rewrite (plain_not_digit a Ha).
  destruct (parse_expr (length ts) ts) as [[e' [| t ts']] |]; try discriminate.
  intros E. injection E as <- _. reflexivity.
Qed.

End MapcalcFacts.

(** ** The reference session *)

Section SessionFacts.
Import Session.

Lemma rasters_set_same (w : world) (n : string) (r : raster) :
  rasters (set_raster w n r) n = Some r.
Proof. cbn. rewrite String.eqb_refl. reflexivity. Qed.

Lemma rasters_set_other (w : world) (n m : string) (r : raster) :
  m <> n -> rasters (set_raster w n r) m = rasters w m.
Proof. intros Hne. cbn. apply String.eqb_neq in Hne. rewrite Hne. reflexivity. Qed.

Lemma rasters_del_same (w : world) (n : string) : rasters (del_raster w n) n = None.
Proof. cbn. rewrite String.eqb_refl. reflexivity. Qed.

Lemma rasters_del_other (w : world) (n m : string) :
  m <> n -> rasters (del_raster w n) m = rasters w m.
Proof. intros Hne. cbn. apply String.eqb_neq in Hne. rewrite Hne. reflexivity. Qed.

Lemma exists_raster_true (w : world) (n : string) :
  exists_raster w n = true -> exists r, rasters w n = Some r.
Proof. unfold exists_raster. destruct (rasters w n) as [r |]; [eauto | discriminate]. Qed.

Lemma exists_raster_false (w : world) (n : string) :
  exists_raster w n = false -> rasters w n = None.
Proof. unfold exists_raster. destruct (rasters w n); [discriminate | reflexivity]. Qed.

(** Existing and missing maps have different names. *)
Lemma name_differs (w : world) (n m : string) (r : raster) :
  rasters w n = Some r -> rasters w m = None -> n <> m.
Proof. intros Hn Hm ->. congruence. Qed.

Lemma run_true (c : command) (w w' : world) :
  run c w = (w', true) -> exec c w = Some w'.
Proof. unfold run. destruct (exec c w); intros E; inversion E; reflexivity. Qed.

Lemma run_false (c : command) (w w' : world) :
  run c w = (w', false) -> w' = w.
Proof. unfold run. destruct (exec c w); intros E; inversion E; reflexivity. Qed.

Lemma exec_not_faulty (c : command) (w w' : world) :
  exec c w = Some w' -> faulty w c = false.
Proof. unfold exec. destruct (faulty w c); [discriminate | reflexivity]. Qed.

Lemma exec_mask_vector (v : string) (w w' : world) :
  exec (r_mask_vector v) w = Some w' ->
  rasters w "MASK" = None
  /\ exists cover, vectors w v = Some cover /\ w' = set_raster w "MASK" (mask_of w cover).
Proof.
  unfold exec. destruct (faulty w _); [discriminate |].
  destruct (rasters w "MASK"); [discriminate |].
  destruct (vectors w v) as [cover |]; [| discriminate].
  intros E. inversion E. eauto.
Qed.

Lemma exec_mask_remove (w w' : world) :
  exec r_mask_remove w = Some w' ->
  exists_raster w "MASK" = true /\ w' = del_raster w "MASK".
Proof.
  unfold exec. destruct (faulty w _); [discriminate |].
  destruct (exists_raster w "MASK"); [| discriminate].
  intros E. inversion E. auto.
Qed.

Lemma exec_grow (input out : string) (radius : Q) (w w' : world) :
  exec (r_grow input out radius) w = Some w' ->
  exists r, read w input = Some r /\ rasters w out = None
            /\ w' = set_raster w out (grow w radius r).
Proof.
  unfold exec. destruct (faulty w _); [discriminate |].
  destruct (read w input) as [r |]; [| discriminate].
  destruct (rasters w out); [discriminate |].
  intros E. inversion E. eauto.
Qed.

Lemma exec_mapcalc (expression : string) (w w' : world) :
  exec (r_mapcalc expression) w = Some w' ->
  exists out e, Mapcalc.parse expression = Some (out, e)
                /\ read_all w (Mapcalc.maps_of e) = true
                /\ exists_raster w out = false
                /\ w' = set_raster w out (mapcalc w e).
Proof.
  unfold exec. destruct (faulty w _); [discriminate |].
  destruct (Mapcalc.parse expression) as [[out e] |]; [| discriminate].
  destruct (read_all w (Mapcalc.maps_of e)) eqn:Hmaps; [| discriminate].
  destruct (exists_raster w out) eqn:Hout; [discriminate |].
  intros E. inversion E. exists out, e. repeat split; assumption.
Qed.

Lemma exec_weigh (v column weight out : string) (w w' : world) :
  exec (v_area_weigh v column weight out) w = Some w' ->
  rasters w out = None /\ exists r, w' = set_raster w out r.
Proof.
  unfold exec. destruct (faulty w _); [discriminate |].
  destruct (installed w _); [| discriminate].
  destruct (vectors w v); [| discriminate].
  destruct (read w weight) as [rw |]; [| discriminate].
  destruct (rasters w out) eqn:Hout; [discriminate |].
  destruct (weigh w v column rw) as [res |]; [| discriminate].
  intros E. inversion E. eauto.
Qed.

Lemma exec_remove (name : string) (w w' : world) :
  exec (g_remove_raster name) w = Some w' ->
  exists_raster w name = true /\ w' = del_raster w name.
Proof.
  unfold exec. destruct (faulty w _); [discriminate |].
  destruct (exists_raster w name); [| discriminate].
  intros E. inversion E. auto.
Qed.

(** *** [r.grow] looks at the region and at the cells in it only *)

Lemma first_value_ext (r r' : raster) (cs : list cell) :
  (forall c, In c cs -> r c = r' c) -> first_value r cs = first_value r' cs.
Proof.
  induction cs as [| c cs IH]; intros Hext; [reflexivity |].
  cbn [first_value]. rewrite <- (Hext c (or_introl eq_refl)).
  destruct (r c); [reflexivity |]. apply IH. intros c' Hc'. apply Hext. right. exact Hc'.
Qed.

Lemma forallb_defined_ext (r r' : raster) (cs : list cell) :
  (forall c, In c cs -> r c = r' c) ->
  forallb (defined r) cs = forallb (defined r') cs.
Proof.
  induction cs as [| c cs IH]; intros Hext; [reflexivity |].
  cbn [forallb]. unfold defined at 1 3. rewrite <- (Hext c (or_introl eq_refl)).
  rewrite IH; [reflexivity |]. intros c' Hc'. apply Hext. right. exact Hc'.
Qed.

Lemma neighbours_in_region (w : world) (radius : Q) (c n : cell) :
  In n (neighbours w radius c) -> in_region w n = true.
Proof. unfold neighbours. intros Hin. apply filter_In in Hin. apply Hin. Qed.

Lemma grow_ext (w w' : world) (radius : Q) (r r' : raster) :
  nrows w' = nrows w -> ncols w' = ncols w ->
  (forall c, in_region w c = true -> r' c = r c) ->
  forall c, grow w' radius r' c = grow w radius r c.
Proof.
  intros Hrows Hcols Hext c.
  assert (Hreg : forall x, in_region w' x = in_region w x).
  { intros x. unfold in_region. rewrite Hrows, Hcols. reflexivity. }
  assert (Hnb : neighbours w' radius c = neighbours w radius c).
  { unfold neighbours. apply filter_ext. exact Hreg. }
  unfold grow. rewrite Hreg, Hnb.
  destruct (in_region w c) eqn:Hc; [| reflexivity].
  rewrite (Hext c Hc).
  rewrite (first_value_ext r' r), (forallb_defined_ext r' r); [reflexivity | |];
    intros n Hn; apply Hext; apply (neighbours_in_region w radius c n Hn).
Qed.

(** *** Reading maps with and without a MASK *)

Lemma read_inv (w : world) (n : string) (r' : raster) :
  read w n = Some r' ->
  exists r, rasters w n = Some r
            /\ r' = (fun c => if in_region w c then masked w r c else None).
Proof.
  unfold read. destruct (rasters w n) as [r |]; [| discriminate].
  intros E. inversion E. eauto.
Qed.

Lemma masked_by_vector (w w0 : world) (cover : cell -> bool) (r : raster) (c : cell) :
  rasters w "MASK" = Some (mask_of w0 cover) ->
  in_region w0 c = true ->
  masked w r c = through w0 cover r c.
Proof.
  intros Hmask Hc. unfold masked, through. rewrite Hmask. unfold mask_of.
  rewrite Hc. cbn [andb]. destruct (cover c); reflexivity.
Qed.

Lemma masked_without_mask (w : world) (r : raster) (c : cell) :
  rasters w "MASK" = None -> masked w r c = r c.
Proof. intros Hmask. unfold masked. rewrite Hmask. reflexivity. Qed.

Lemma env_at_unmasked (w : world) (n : string) (r : raster) (c : cell) :
  rasters w "MASK" = None -> rasters w n = Some r -> in_region w c = true ->
  env_at w c n = r c.
Proof.
  intros Hmask Hn Hc. unfold env_at, read. rewrite Hn, Hc.
  apply masked_without_mask. exact Hmask.
Qed.

Ltac lookup :=
  repeat first
    [ rewrite rasters_set_same
    | rewrite rasters_del_same
    | rewrite rasters_set_other by congruence
    | rewrite rasters_del_other by congruence ].

(** *** What the five builder calls leave in the session

    When the five calls have succeeded, the population raster is still the
    one the run started with, the mask is released, and the three
    intermediate rasters hold: the population raster grown by 1.01 inside
    the urban cover, that raster shrunk by 1.01 inside the urban cover, and
    the cell-wise merge. *)
Lemma builder_inv (opts : options) (pid : N) (w w5 : world) :
  Mapcalc.plain_name (population_raster opts) = true ->
  succeeded (builder_commands opts pid) w w5 ->
  exists (orig : raster) (cover : cell -> bool) (g1r g2r comp : raster),
    rasters w (population_raster opts) = Some orig
    /\ vectors w (urban_vector opts) = Some cover
    /\ rasters w "MASK" = None
    /\ (nrows w5 = nrows w /\ ncols w5 = ncols w)
    /\ rasters w5 "MASK" = None
    /\ rasters w5 (population_raster opts) = Some orig
    /\ rasters w5 (temp_grow1 (population_raster opts) pid) = Some g1r
    /\ rasters w5 (temp_grow2 (population_raster opts) pid) = Some g2r
    /\ rasters w5 (pop_raster_new pid) = Some comp
    /\ (forall c, g1r c = grow w radius_grow (through w cover orig) c)
    /\ (forall c, g2r c = grow w radius_shrink (through w cover g1r) c)
    /\ (forall c, comp c = if in_region w c
                           then match orig c with Some v => Some v | None => g2r c end
                           else None).
Proof.
  intros Hplain Hchain.
  set (p := population_raster opts) in *.
  set (g1 := temp_grow1 p pid) in *. set (g2 := temp_grow2 p pid) in *.
  set (new := pop_raster_new pid) in *.
  cbn [builder_commands succeeded] in Hchain. unfold merge_command in Hchain.
  fold p g1 g2 new in Hchain.
  destruct Hchain as (w1 & E1 & w2 & E2 & w3 & E3 & w4 & E4 & w5' & E5 & ->).
  apply run_true in E1, E2, E3, E4, E5.
  apply exec_mask_vector in E1. destruct E1 as (Hmask0 & cover & Hcover & ->).
  apply exec_grow in E2. destruct E2 as (r1 & Hr1 & Hg1free & ->).
  apply exec_grow in E3. destruct E3 as (r2 & Hr2 & Hg2free & ->).
  apply exec_mask_remove in E4. destruct E4 as (_ & ->).
  apply exec_mapcalc in E5. destruct E5 as (out & e & Hparse & Hmaps & Hnewfree & ->).
  rewrite parse_mapcalc_expression in Hparse;
    [| apply plain_pop_raster_new | exact Hplain | apply plain_temp_grow2, Hplain
     | exact Hplain].
  injection Hparse as <- <-.
  fold new in Hnewfree |- *.
  cbn [Mapcalc.maps_of app read_all] in Hmaps.
  apply andb_true_iff in Hmaps. destruct Hmaps as [Hp4 Hmaps].
  apply andb_true_iff in Hmaps. destruct Hmaps as [Hg24 _].
  apply exists_raster_true in Hp4. destruct Hp4 as [rp Hp4].
  apply exists_raster_true in Hg24. destruct Hg24 as [rg2 Hg24].
  apply exists_raster_false in Hnewfree.
  apply read_inv in Hr1. destruct Hr1 as (orig & Hp1 & ->).
  apply read_inv in Hr2. destruct Hr2 as (g1r & Hg12 & Hr2).
  (* names *)
  assert (HpM : p <> "MASK").
  { intros Heq. rewrite Heq in Hp4. rewrite rasters_del_same in Hp4. discriminate. }
  assert (Hg2M : g2 <> "MASK").
  { intros Heq. rewrite Heq in Hg24. rewrite rasters_del_same in Hg24. discriminate. }
  assert (Hg1M : g1 <> "MASK").
  { intros Heq. rewrite Heq in Hg1free. rewrite rasters_set_same in Hg1free. discriminate. }
  assert (Hpg1 : p <> g1) by exact (name_differs _ _ _ _ Hp1 Hg1free).
  assert (Hg1g2 : g1 <> g2) by exact (name_differs _ _ _ _ Hg12 Hg2free).
  rewrite rasters_set_other in Hp1 by exact HpM.
  assert (Hpg2 : p <> g2).
  { eapply name_differs; [| exact Hg2free]. lookup. exact Hp1. }
  assert (Hnewp : p <> new).
  { eapply name_differs; [| exact Hnewfree]. lookup. exact Hp1. }
  assert (Hnewg1 : g1 <> new).
  { eapply name_differs; [| exact Hnewfree]. lookup. reflexivity. }
  assert (Hnewg2 : g2 <> new).
  { eapply name_differs; [| exact Hnewfree]. lookup. reflexivity. }
  rewrite rasters_set_same in Hg12. injection Hg12 as <-.
  set (w1 := set_raster w "MASK" (mask_of w cover)) in *.
  set (g1r := grow w1 radius_grow
                (fun c => if in_region w1 c then masked w1 orig c else None)) in *.
  set (w2 := set_raster w1 g1 g1r) in *.
  set (g2r := grow w2 radius_shrink r2) in *.
  set (w3 := set_raster w2 g2 g2r) in *.
  set (w4 := del_raster w3 "MASK") in *.
  set (e := Mapcalc.EIf (Mapcalc.EIsNull (Mapcalc.EMap p)) (Mapcalc.EMap g2)
                        (Mapcalc.EMap p)) in *.
  assert (Hp4' : rasters w4 p = Some orig).
  { unfold w4, w3, w2, w1. lookup. exact Hp1. }
  assert (Hg24' : rasters w4 g2 = Some g2r).
  { unfold w4, w3. lookup. reflexivity. }
  assert (HM4 : rasters w4 "MASK" = None) by apply rasters_del_same.
  assert (HM5 : rasters (set_raster w4 new (mapcalc w4 e)) "MASK" = None).
  { lookup. apply rasters_del_same. }
  assert (Hp5 : rasters (set_raster w4 new (mapcalc w4 e)) p = Some orig).
  { lookup. exact Hp4'. }
  assert (Hg15 : rasters (set_raster w4 new (mapcalc w4 e)) g1 = Some g1r).
  { unfold w4, w3, w2. lookup. reflexivity. }
  assert (Hg25 : rasters (set_raster w4 new (mapcalc w4 e)) g2 = Some g2r).
  { lookup. exact Hg24'. }
  assert (Hnew5 : rasters (set_raster w4 new (mapcalc w4 e)) new = Some (mapcalc w4 e)).
  { apply rasters_set_same. }
  assert (Hgrown : forall c, g1r c = grow w radius_grow (through w cover orig) c).
  { intros c. unfold g1r. apply grow_ext; [reflexivity | reflexivity |].
    intros x Hx. change (in_region w1 x) with (in_region w x). rewrite Hx.
    apply masked_by_vector; [apply rasters_set_same | exact Hx]. }
  assert (Hshrunk : forall c, g2r c = grow w radius_shrink (through w cover g1r) c).
  { intros c. unfold g2r. apply grow_ext; [reflexivity | reflexivity |].
    intros x Hx. rewrite Hr2. change (in_region w2 x) with (in_region w x). rewrite Hx.
    apply masked_by_vector; [| exact Hx].
    unfold w2. lookup. apply rasters_set_same. }
  assert (Hmerge : forall c, mapcalc w4 e c
                             = if in_region w c
                               then match orig c with Some v => Some v | None => g2r c end
                               else None).
  { intros c. unfold mapcalc. change (in_region w4 c) with (in_region w c).
    destruct (in_region w c) eqn:Hc; [| reflexivity].
    unfold e. cbn [Mapcalc.eval].
    rewrite (env_at_unmasked w4 p orig c HM4 Hp4' Hc).
    rewrite (env_at_unmasked w4 g2 g2r c HM4 Hg24' Hc).
    destruct (orig c); reflexivity. }
  exists orig, cover, g1r, g2r, (mapcalc w4 e).
  repeat split; solve [assumption | reflexivity].
Qed.

Lemma weigh_keeps (c : command) (w5 : world) (n : string) (r : raster) :
  (exists v column weight out, c = v_area_weigh v column weight out) ->
  rasters w5 n = Some r ->
  rasters (fst (run c w5)) n = Some r.
Proof.
  intros (v & column & weight & out & ->) Hn. unfold run.
  destruct (exec (v_area_weigh v column weight out) w5) as [w6 |] eqn:E; cbn [fst];
    [| exact Hn].
  apply exec_weigh in E. destruct E as (Hfree & res & ->).
  rewrite rasters_set_other; [exact Hn |].
  exact (name_differs _ _ _ _ Hn Hfree).
Qed.

(** The session [main] leaves when it got to the weighting step, whether
    [v.area.weigh] then succeeded or not. *)
Lemma weighting_surface (opts : options) (pid : N) (w : world) :
  Mapcalc.plain_name (population_raster opts) = true ->
  reached_weigh (log (main_state opts pid w)) = true ->
  exists (orig : raster) (cover : cell -> bool) (g1r g2r comp : raster),
    rasters w (population_raster opts) = Some orig
    /\ vectors w (urban_vector opts) = Some cover
    /\ rasters (session (main_state opts pid w)) (population_raster opts) = Some orig
    /\ rasters (session (main_state opts pid w))
               (temp_grow2 (population_raster opts) pid) = Some g2r
    /\ rasters (session (main_state opts pid w)) (pop_raster_new pid) = Some comp
    /\ (forall c, g1r c = grow w radius_grow (through w cover orig) c)
    /\ (forall c, g2r c = grow w radius_shrink (through w cover g1r) c)
    /\ (forall c, comp c = if in_region w c
                           then match orig c with Some v => Some v | None => g2r c end
                           else None).
Proof.
  intros Hplain Hreach.
  destruct (reached_weigh_inv opts pid w Hreach) as (w5 & _ & Hchain & Hfinal).
  destruct (builder_inv opts pid w w5 Hplain Hchain)
    as (orig & cover & g1r & g2r & comp & Hp & Hcover & _ & _ & _ & Hp5 & _ & Hg25
        & Hnew5 & Hgrown & Hshrunk & Hmerge).
  assert (Hw : exists v column weight out,
             weigh_command opts pid = v_area_weigh v column weight out).
  { unfold weigh_command. eauto. }
  exists orig, cover, g1r, g2r, comp. rewrite Hfinal.
  repeat split; try assumption; apply weigh_keeps; assumption.
Qed.

(** *** Claims about the weighting raster *)

(** C3. When a run gets to the weighting step, the merged raster
    [pop_raster_temp_<pid>] holds, at every cell of the region, the value of
    the grown-then-shrunk raster where the population raster (as stored,
    read without a mask) is nodata, and the value of the population raster
    elsewhere. *)
Theorem merge_prefers_original (opts : options) (pid : N) (w : world) :
  Mapcalc.plain_name (population_raster opts) = true ->
  reached_weigh (log (main_state opts pid w)) = true ->
  exists orig shrunk composite : raster,
    rasters (session (main_state opts pid w)) (population_raster opts) = Some orig
    /\ rasters (session (main_state opts pid w))
               (temp_grow2 (population_raster opts) pid) = Some shrunk
    /\ rasters (session (main_state opts pid w)) (pop_raster_new pid) = Some composite
    /\ forall c, in_region w c = true ->
                 composite c = match orig c with
                               | None => shrunk c
                               | Some v => Some v
                               end.
Proof.
  intros Hplain Hreach.
  destruct (weighting_surface opts pid w Hplain Hreach)
    as (orig & cover & g1r & g2r & comp & _ & _ & Hp & Hg2 & Hnew & _ & _ & Hmerge).
  exists orig, g2r, comp. repeat split; try assumption.
  intros c Hc. rewrite Hmerge, Hc. destruct (orig c); reflexivity.
Qed.

Lemma shrunk_outside_cover (w : world) (cover : cell -> bool) (r : raster) (c : cell) :
  cover c = false -> grow w radius_shrink (through w cover r) c = None.
Proof.
  intros Hout. unfold grow, through.
  destruct (in_region w c); [| reflexivity].
  change (Qle_bool 0 radius_shrink) with false. cbn iota.
  rewrite Hout. reflexivity.
Qed.

(** C4. When a run gets to the weighting step, at every cell of the region
    outside the urban areas the merged raster has the value the population
    raster had when the run started, nodata included. *)
Theorem outside_urban_is_original (opts : options) (pid : N) (w : world) :
  Mapcalc.plain_name (population_raster opts) = true ->
  reached_weigh (log (main_state opts pid w)) = true ->
  exists (orig : raster) (cover : cell -> bool) (composite : raster),
    rasters w (population_raster opts) = Some orig
    /\ vectors w (urban_vector opts) = Some cover
    /\ rasters (session (main_state opts pid w)) (pop_raster_new pid) = Some composite
    /\ forall c, in_region w c = true -> cover c = false -> composite c = orig c.
Proof.
  intros Hplain Hreach.
  destruct (weighting_surface opts pid w Hplain Hreach)
    as (orig & cover & g1r & g2r & comp & Hp & Hcover & _ & _ & Hnew & _ & Hshrunk & Hmerge).
  exists orig, cover, comp. repeat split; try assumption.
  intros c Hc Hout. rewrite Hmerge, Hc, Hshrunk, (shrunk_outside_cover w cover g1r c Hout).
  destruct (orig c); reflexivity.
Qed.

(** *** The names [main] builds never collide *)

Lemma length_append (a b : string) :
  String.length (a ++ b) = (String.length a + String.length b)%nat.
Proof. induction a as [| x a IH]; cbn; [reflexivity | rewrite IH; reflexivity]. Qed.

Lemma append_assoc (a b c : string) : (a ++ (b ++ c) = (a ++ b) ++ c)%string.
Proof. induction a as [| x a IH]; cbn; [reflexivity | rewrite IH; reflexivity]. Qed.

Lemma append_inj_l (p x y : string) : (p ++ x = p ++ y)%string -> x = y.
Proof.
  induction p as [| ch p IH]; cbn; intros Heq; [exact Heq |].
  injection Heq as Heq. apply IH. exact Heq.
Qed.

Lemma append_inj_r (a b d : string) : (a ++ d = b ++ d)%string -> a = b.
Proof.
  revert b. induction a as [| x a IH]; intros [| y b] Heq; cbn in Heq.
  - reflexivity.
  - apply (f_equal String.length) in Heq. cbn in Heq. rewrite length_append in Heq. lia.
  - apply (f_equal String.length) in Heq. cbn in Heq. rewrite length_append in Heq. lia.
  - injection Heq as -> Heq. rewrite (IH b Heq). reflexivity.
Qed.

Lemma temp_grow1_not_mask (p : string) (pid : N) : temp_grow1 p pid <> "MASK".
Proof.
  unfold temp_grow1. intros Heq. apply (f_equal String.length) in Heq.
  rewrite !length_append in Heq. cbn in Heq. lia.
Qed.

Lemma temp_grow2_not_mask (p : string) (pid : N) : temp_grow2 p pid <> "MASK".
Proof.
  unfold temp_grow2. intros Heq. apply (f_equal String.length) in Heq.
  rewrite !length_append in Heq. cbn in Heq. lia.
Qed.

Lemma pop_raster_new_not_mask (pid : N) : pop_raster_new pid <> "MASK".
Proof. unfold pop_raster_new. cbn. discriminate. Qed.

Lemma temp_grows_differ (p : string) (pid : N) : temp_grow1 p pid <> temp_grow2 p pid.
Proof.
  unfold temp_grow1, temp_grow2. intros Heq. apply append_inj_l in Heq.
  cbn in Heq. discriminate Heq.
Qed.

Lemma pop_raster_new_not_grow1 (p : string) (pid : N) :
  pop_raster_new pid <> temp_grow1 p pid.
Proof.
  unfold pop_raster_new, temp_grow1. intros Heq.
  rewrite (append_assoc p) in Heq. apply append_inj_r in Heq.
  pose proof (f_equal String.length Heq) as Hlen.
  rewrite length_append in Hlen. cbn in Hlen.
  do 5 (destruct p as [| ? p]; [cbn in Heq, Hlen; try lia; try discriminate Heq |]).
  cbn in Hlen. lia.
Qed.

Lemma pop_raster_new_not_grow2 (p : string) (pid : N) :
  pop_raster_new pid <> temp_grow2 p pid.
Proof.
  unfold pop_raster_new, temp_grow2. intros Heq.
  rewrite (append_assoc p) in Heq. apply append_inj_r in Heq.
  pose proof (f_equal String.length Heq) as Hlen.
  rewrite length_append in Hlen. cbn in Hlen.
  do 4 (destruct p as [| ? p]; [cbn in Heq, Hlen; try lia; try discriminate Heq |]).
  cbn in Hlen. lia.
Qed.

(** *** Modules that succeed *)

Lemma run_mask_vector_ok (v : string) (w : world) (cover : cell -> bool) :
  faulty w (r_mask_vector v) = false ->
  rasters w "MASK" = None -> vectors w v = Some cover ->
  run (r_mask_vector v) w = (set_raster w "MASK" (mask_of w cover), true).
Proof. intros Hf Hm Hv. unfold run, exec. rewrite Hf, Hm, Hv. reflexivity. Qed.

Lemma run_mask_remove_ok (w : world) (m : raster) :
  faulty w r_mask_remove = false -> rasters w "MASK" = Some m ->
  run r_mask_remove w = (del_raster w "MASK", true).
Proof. intros Hf Hm. unfold run, exec, exists_raster. rewrite Hf, Hm. reflexivity. Qed.

Lemma run_grow_ok (input out : string) (radius : Q) (w : world) (r : raster) :
  faulty w (r_grow input out radius) = false ->
  rasters w input = Some r -> rasters w out = None ->
  run (r_grow input out radius) w
  = (set_raster w out
       (grow w radius (fun c => if in_region w c then masked w r c else None)), true).
Proof. intros Hf Hi Ho. unfold run, exec, read. rewrite Hf, Hi, Ho. reflexivity. Qed.

Lemma run_mapcalc_ok (expression out : string) (e : Mapcalc.expr) (w : world) :
  faulty w (r_mapcalc expression) = false ->
  Mapcalc.parse expression = Some (out, e) ->
  read_all w (Mapcalc.maps_of e) = true -> rasters w out = None ->
  run (r_mapcalc expression) w = (set_raster w out (mapcalc w e), true).
Proof.
  intros Hf Hp Hm Ho. unfold run, exec, exists_raster. rewrite Hf, Hp, Hm, Ho.
  reflexivity.
Qed.

Lemma run_remove_ok (name : string) (w : world) (r : raster) :
  faulty w (g_remove_raster name) = false -> rasters w name = Some r ->
  run (g_remove_raster name) w = (del_raster w name, true).
Proof. intros Hf Hn. unfold run, exec, exists_raster. rewrite Hf, Hn. reflexivity. Qed.

(** The builder goes through in a session where its modules work, the
    inputs exist, no mask is set and the three intermediate names are free. *)
Lemma builder_succeeds (opts : options) (pid : N) (w : world)
      (orig : raster) (cover : cell -> bool) :
  Mapcalc.plain_name (population_raster opts) = true ->
  (forall c, In c (builder_commands opts pid) -> faulty w c = false) ->
  rasters w "MASK" = None ->
  rasters w (population_raster opts) = Some orig ->
  vectors w (urban_vector opts) = Some cover ->
  (forall n, In n (intermediates opts pid) -> rasters w n = None) ->
  exists w5, succeeded (builder_commands opts pid) w w5.
Proof.
  intros Hplain Hwork Hmask Hp Hcover Hfree.
  set (p := population_raster opts) in *.
  pose proof (Hfree _ (or_introl eq_refl)) as Hg1.
  pose proof (Hfree _ (or_intror (or_introl eq_refl))) as Hg2.
  pose proof (Hfree _ (or_intror (or_intror (or_introl eq_refl)))) as Hnew.
  fold p in Hg1, Hg2.
  assert (HpM : p <> "MASK") by exact (name_differs _ _ _ _ Hp Hmask).
  assert (Hpg1 : p <> temp_grow1 p pid) by exact (name_differs _ _ _ _ Hp Hg1).
  assert (Hpg2 : p <> temp_grow2 p pid) by exact (name_differs _ _ _ _ Hp Hg2).
  assert (Hpnew : p <> pop_raster_new pid) by exact (name_differs _ _ _ _ Hp Hnew).
  pose proof (temp_grow1_not_mask p pid) as Hg1M.
  pose proof (temp_grow2_not_mask p pid) as Hg2M.
  pose proof (temp_grows_differ p pid) as Hg1g2.
  pose proof (pop_raster_new_not_grow1 p pid) as Hng1.
  pose proof (pop_raster_new_not_grow2 p pid) as Hng2.
  pose proof (pop_raster_new_not_mask pid) as HnM.
  cbn [builder_commands succeeded]. unfold merge_command. fold p.
  cbn [run_module grass_world].
  eexists. eexists. split.
  { apply run_mask_vector_ok; [apply Hwork; cbn; tauto | exact Hmask | exact Hcover]. }
  eexists. split.
  { apply run_grow_ok; [apply Hwork; cbn; tauto | lookup; exact Hp | lookup; exact Hg1]. }
  eexists. split.
  { apply run_grow_ok; [apply Hwork; cbn; tauto | lookup; reflexivity | lookup; exact Hg2]. }
  eexists. split.
  { eapply run_mask_remove_ok; [apply Hwork; cbn; tauto | lookup; reflexivity]. }
  eexists. split; [| reflexivity].
  apply run_mapcalc_ok.
  - apply Hwork. cbn. tauto.
  - apply parse_mapcalc_expression;
      [apply plain_pop_raster_new | exact Hplain | apply plain_temp_grow2, Hplain
       | exact Hplain].
  - cbn [Mapcalc.maps_of app read_all]. unfold exists_raster. lookup. rewrite Hp.
    reflexivity.
  - lookup. exact Hnew.
Qed.

(** C5. With urban areas that cover no cell of the region, in a session
    where the add-on is installed, the builder's modules work, the inputs
    exist, no mask is set and the intermediate names are free, the run gets
    through the builder to the weighting step, and the merged raster has at
    every cell of the region the value of the population raster. *)
Theorem empty_urban_extent_passes_through (opts : options) (pid : N) (w : world)
        (orig : raster) (cover : cell -> bool) :
  Mapcalc.plain_name (population_raster opts) = true ->
  installed w "v.area.weigh" = true ->
  (forall c, In c (builder_commands opts pid) -> faulty w c = false) ->
  rasters w "MASK" = None ->
  rasters w (population_raster opts) = Some orig ->
  vectors w (urban_vector opts) = Some cover ->
  (forall n, In n (intermediates opts pid) -> rasters w n = None) ->
  (forall c, in_region w c = true -> cover c = false) ->
  reached_weigh (log (main_state opts pid w)) = true
  /\ exists composite : raster,
       rasters (session (main_state opts pid w)) (pop_raster_new pid) = Some composite
       /\ forall c, in_region w c = true -> composite c = orig c.
Proof.
  intros Hplain Hinst Hwork Hmask Hp Hcover Hfree Hempty.
  destruct (builder_succeeds opts pid w orig cover Hplain Hwork Hmask Hp Hcover Hfree)
    as [w5 Hchain].
  assert (Hfound : find_program "v.area.weigh" "--help" w = true) by (cbn; exact Hinst).
  destruct (builder_reaches_weigh opts pid w w5 Hfound Hchain) as [Hreach _].
  split; [exact Hreach |].
  destruct (weighting_surface opts pid w Hplain Hreach)
    as (orig' & cover' & g1r & g2r & comp & Hp' & Hcover' & _ & _ & Hnew & _ & Hshrunk
        & Hmerge).
  rewrite Hp in Hp'. injection Hp' as <-.
  rewrite Hcover in Hcover'. injection Hcover' as <-.
  exists comp. split; [exact Hnew |].
  intros c Hc.
  rewrite Hmerge, Hc, Hshrunk, (shrunk_outside_cover w cover g1r c (Hempty c Hc)).
  destruct (orig c); reflexivity.
Qed.

(** *** Closing of gaps *)

Lemma offsets_shrink_grow : offsets radius_shrink = offsets radius_grow.
Proof. vm_compute. reflexivity. Qed.

Lemma neighbours_shrink_grow (w : world) (c : cell) :
  neighbours w radius_shrink c = neighbours w radius_grow c.
Proof. unfold neighbours. rewrite offsets_shrink_grow. reflexivity. Qed.

Lemma first_value_defined (r : raster) (cs : list cell) :
  existsb (defined r) cs = true -> exists v, first_value r cs = Some v.
Proof.
  induction cs as [| c cs IH]; cbn [existsb first_value]; [discriminate |].
  unfold defined at 1. destruct (r c) as [v |]; [eauto | exact IH].
Qed.

(** Growing gives data to every cell of the region that has data or lies
    next to a cell with data. *)
Lemma grown_defined (w : world) (cover : cell -> bool) (r : raster) (c : cell) :
  in_region w c = true -> near_data w cover r c = true ->
  defined (grow w radius_grow (through w cover r)) c = true.
Proof.
  intros Hc Hnear. unfold defined, grow. rewrite Hc.
  change (Qle_bool 0 radius_grow) with true. cbn iota.
  unfold near_data in Hnear. unfold defined at 1 in Hnear.
  destruct (through w cover r c) as [v |]; [reflexivity |].
  cbn [orb] in Hnear. destruct (first_value_defined _ _ Hnear) as [v ->]. reflexivity.
Qed.

(** C8 (as amended). When a run gets to the weighting step, a nodata cell
    of the region inside the urban areas that has a cell with data next to
    it in the urban areas gets a value in the merged raster, provided every
    cell next to it in the region lies in the urban areas and has data or a
    neighbour with data there.  For two cells with data on opposite sides of
    the gap the proviso is about the two other neighbours. *)
Theorem gap_closed_when_neighbours_near_data
        (opts : options) (pid : N) (w : world)
        (orig : raster) (cover : cell -> bool) (gap : cell) :
  Mapcalc.plain_name (population_raster opts) = true ->
  reached_weigh (log (main_state opts pid w)) = true ->
  rasters w (population_raster opts) = Some orig ->
  vectors w (urban_vector opts) = Some cover ->
  in_region w gap = true -> cover gap = true -> orig gap = None ->
  existsb (defined (through w cover orig)) (neighbours w radius_grow gap) = true ->
  (forall n, In n (neighbours w radius_grow gap) ->
             cover n = true /\ near_data w cover orig n = true) ->
  exists (composite : raster) (v : Z),
    rasters (session (main_state opts pid w)) (pop_raster_new pid) = Some composite
    /\ composite gap = Some v.
Proof.
  intros Hplain Hreach Hp Hcover Hgap Hurban Hnodata Hadjacent Hsurround.
  destruct (weighting_surface opts pid w Hplain Hreach)
    as (orig' & cover' & g1r & g2r & comp & Hp' & Hcover' & _ & _ & Hnew & Hgrown
        & Hshrunk & Hmerge).
  rewrite Hp in Hp'. injection Hp' as <-.
  rewrite Hcover in Hcover'. injection Hcover' as <-.
  assert (Hg1 : forall c, in_region w c = true -> cover c = true ->
                          near_data w cover orig c = true ->
                          defined (through w cover g1r) c = true).
  { intros c Hc Hcov Hnear. unfold defined, through. rewrite Hc, Hcov. cbn [andb].
    rewrite Hgrown. exact (grown_defined w cover orig c Hc Hnear). }
  assert (Hgapnear : near_data w cover orig gap = true).
  { unfold near_data. rewrite Hadjacent. apply orb_true_r. }
  pose proof (Hg1 gap Hgap Hurban Hgapnear) as Hgapgrown.
  assert (Hall : forallb (defined (through w cover g1r)) (neighbours w radius_shrink gap)
                 = true).
  { rewrite neighbours_shrink_grow. apply forallb_forall. intros n Hn.
    destruct (Hsurround n Hn) as [Hcov Hnear].
    exact (Hg1 n (neighbours_in_region w radius_grow gap n Hn) Hcov Hnear). }
  unfold defined in Hgapgrown.
  destruct (through w cover g1r gap) as [v |] eqn:Hv; [| discriminate Hgapgrown].
  exists comp, v. split; [exact Hnew |].
  rewrite Hmerge, Hgap, Hnodata, Hshrunk. unfold grow. rewrite Hgap.
  change (Qle_bool 0 radius_shrink) with false. cbn iota.
  rewrite Hv, Hall. reflexivity.
Qed.

(** *** [cleanup] in the reference session *)

Ltac run_here :=
  match goal with
  | |- context [run ?c ?x] =>
      let w' := fresh "w" in
      let ok := fresh "ok" in
      let E := fresh "E" in
      destruct (run c x) as [w' ok] eqn:E; cbn [session rm_rasters log] in E
  end.

Lemma exec_keeps_faulty (c : command) (w w' : world) :
  exec c w = Some w' -> faulty w' = faulty w.
Proof.
  intros E. destruct c.
  - apply exec_mask_vector in E. destruct E as (_ & cover & _ & ->). reflexivity.
  - apply exec_mask_remove in E. destruct E as (_ & ->). reflexivity.
  - apply exec_grow in E. destruct E as (r & _ & _ & ->). reflexivity.
  - apply exec_mapcalc in E. destruct E as (out & e & _ & _ & _ & ->). reflexivity.
  - apply exec_weigh in E. destruct E as (_ & r & ->). reflexivity.
  - apply exec_remove in E. destruct E as (_ & ->). reflexivity.
Qed.

Lemma run_keeps_faulty (c : command) (w : world) : faulty (fst (run c w)) = faulty w.
Proof.
  unfold run. destruct (exec c w) as [w' |] eqn:E; cbn [fst]; [| reflexivity].
  exact (exec_keeps_faulty c w w' E).
Qed.

Lemma succeeded_keeps_faulty (cs : list command) (w w' : world) :
  succeeded cs w w' -> faulty w' = faulty w.
Proof.
  revert w. induction cs as [| c cs IH]; intros w; cbn [succeeded].
  - intros ->. reflexivity.
  - intros (w1 & E & Hrest). rewrite (IH w1 Hrest).
    change (run_module c w) with (run c w) in E.
    pose proof (run_keeps_faulty c w) as Hk. rewrite E in Hk. exact Hk.
Qed.

Lemma in_existsb_eqb (n : string) (names : list string) :
  existsb (String.eqb n) names = true <-> In n names.
Proof.
  rewrite existsb_exists. split.
  - intros (m & Hin & Heq). apply String.eqb_eq in Heq. subst. exact Hin.
  - intros Hin. exists n. split; [exact Hin | apply String.eqb_refl].
Qed.

(** Where the removals work, [remove_rasters] ends normally and leaves no
    raster under a name of its list; other rasters stay. *)
Lemma remove_rasters_store (names : list string) (s : state world) :
  (forall n, faulty (session s) (g_remove_raster n) = false) ->
  fst (remove_rasters names s) = Returned tt
  /\ faulty (session (snd (remove_rasters names s))) = faulty (session s)
  /\ forall n, rasters (session (snd (remove_rasters names s))) n
               = if existsb (String.eqb n) names then None else rasters (session s) n.
Proof.
  revert s. induction names as [| rmrast rest IH]; intros s Hwork.
  - repeat split.
  - cbn [remove_rasters]. unfold bind, grass_find_file, grass_run_command, ret, emit.
    cbn [find_file run_module grass_world]. cbn [fst snd session rm_rasters log].
    change (find rmrast "raster" (session s)) with (exists_raster (session s) rmrast).
    destruct (exists_raster (session s) rmrast) eqn:Hex.
    + destruct (exists_raster_true _ _ Hex) as [r Hr].
      run_here. rewrite (run_remove_ok rmrast (session s) r (Hwork rmrast) Hr) in E.
      injection E as <- <-. cbn [fst snd session rm_rasters log].
      match goal with |- context [remove_rasters rest ?s1] =>
        destruct (IH s1) as (Hok & Hfaulty & Hstore); [exact Hwork |] end.
      split; [exact Hok | split; [exact Hfaulty |]].
      intros n. rewrite Hstore. cbn [session existsb].
      destruct (String.eqb_spec n rmrast) as [-> | Hne]; cbn [orb].
      * rewrite rasters_del_same. destruct (existsb _ rest); reflexivity.
      * rewrite rasters_del_other by exact Hne. reflexivity.
    + apply exists_raster_false in Hex.
      match goal with |- context [remove_rasters rest ?s1] =>
        destruct (IH s1) as (Hok & Hfaulty & Hstore); [exact Hwork |] end.
      split; [exact Hok | split; [exact Hfaulty |]].
      intros n. rewrite Hstore. cbn [session existsb].
      destruct (String.eqb_spec n rmrast) as [-> | Hne]; cbn [orb]; [| reflexivity].
      rewrite Hex. destruct (existsb _ rest); reflexivity.
Qed.

Lemma cleanup_store (s : state world) :
  (forall n, faulty (session s) (g_remove_raster n) = false) ->
  faulty (session s) r_mask_remove = false ->
  fst (cleanup s) = Returned tt
  /\ forall n, rasters (session (snd (cleanup s))) n
               = if existsb (String.eqb n) (rm_rasters s) || String.eqb n "MASK"
                 then None else rasters (session s) n.
Proof.
  intros Hwork Hmaskwork.
  destruct (remove_rasters_store (rm_rasters s) s Hwork) as (Hok & Hfaulty & Hstore).
  unfold cleanup, bind, get_rm_rasters. cbn [fst snd].
  destruct (remove_rasters (rm_rasters s) s) as [[[] | e] s1]; cbn [fst snd] in *;
    [| discriminate Hok].
  unfold grass_find_file, try_except_pass, grass_run_command, ret, emit.
  cbn [find_file run_module grass_world]. cbn [fst snd session rm_rasters log].
  change (find "MASK" "raster" (session s1)) with (exists_raster (session s1) "MASK").
  destruct (exists_raster (session s1) "MASK") eqn:Hex.
  - destruct (exists_raster_true _ _ Hex) as [m Hm].
    run_here.
    rewrite (run_mask_remove_ok (session s1) m) in E;
      [| rewrite Hfaulty; exact Hmaskwork | exact Hm].
    injection E as <- <-. cbn [fst snd session]. split; [reflexivity |].
    intros n. destruct (String.eqb_spec n "MASK") as [-> | Hne].
    + rewrite rasters_del_same, orb_true_r. reflexivity.
    + rewrite rasters_del_other by exact Hne. rewrite Hstore, orb_false_r. reflexivity.
  - apply exists_raster_false in Hex. cbn [fst snd session]. split; [reflexivity |].
    intros n. rewrite Hstore.
    destruct (String.eqb_spec n "MASK") as [-> | Hne];
      [| rewrite orb_false_r; reflexivity].
    rewrite orb_true_r. rewrite Hstore in Hex.
    destruct (existsb _ (rm_rasters s)); [reflexivity | exact Hex].
Qed.

(** Whatever fails, [cleanup] touches no raster outside its list but MASK. *)
Lemma remove_rasters_frame (names : list string) (s : state world) (n : string) :
  ~ In n names ->
  rasters (session (snd (remove_rasters names s))) n = rasters (session s) n.
Proof.
  revert s. induction names as [| rmrast rest IH]; intros s Hnot; [reflexivity |].
  assert (Hne : n <> rmrast) by (intros ->; apply Hnot; left; reflexivity).
  assert (Hrest : ~ In n rest) by (intros Hin; apply Hnot; right; exact Hin).
  cbn [remove_rasters]. unfold bind, grass_find_file, grass_run_command, ret, emit.
  cbn [find_file run_module grass_world]. cbn [fst snd session rm_rasters log].
  destruct (find rmrast "raster" (session s)).
  - run_here. destruct ok; cbn [fst snd session].
    + rewrite (IH _ Hrest). cbn [session].
      apply run_true, exec_remove in E. destruct E as (_ & ->).
      apply rasters_del_other. exact Hne.
    + apply run_false in E. rewrite E. reflexivity.
  - rewrite (IH _ Hrest). reflexivity.
Qed.

Lemma cleanup_frame (s : state world) (n : string) :
  ~ In n (rm_rasters s) -> n <> "MASK" ->
  rasters (session (snd (cleanup s))) n = rasters (session s) n.
Proof.
  intros Hnot Hne.
  pose proof (remove_rasters_frame (rm_rasters s) s n Hnot) as Hframe.
  unfold cleanup, bind, get_rm_rasters. cbn [fst snd].
  destruct (remove_rasters (rm_rasters s) s) as [[[] | e] s1]; cbn [fst snd] in *;
    [| exact Hframe].
  unfold grass_find_file, try_except_pass, grass_run_command, ret, emit.
  cbn [find_file run_module grass_world]. cbn [fst snd session rm_rasters log].
  destruct (find "MASK" "raster" (session s1)); [| exact Hframe].
  run_here. destruct ok; cbn [fst snd session].
  - apply run_true, exec_mask_remove in E. destruct E as (_ & ->).
    rewrite rasters_del_other by exact Hne. exact Hframe.
  - apply run_false in E. rewrite E. exact Hframe.
Qed.

(** *** What [main] leaves for [cleanup] *)

Lemma main_keeps_faulty (opts : options) (pid : N) (w : world) :
  faulty (session (main_state opts pid w)) = faulty w.
Proof.
  pose proof (main_run_spec opts pid w) as Hrun.
  inversion Hrun as [Hf Hr Hs | k c wk w' Hf Hchain Hnth Hfail Hr Hs | w' Hf Hchain Hr Hs];
    cbn [session].
  - reflexivity.
  - change (run_module c wk) with (run c wk) in Hfail.
    apply run_false in Hfail. subst w'.
    exact (succeeded_keeps_faulty _ _ _ Hchain).
  - exact (succeeded_keeps_faulty _ _ _ Hchain).
Qed.

(** A name [main] has not registered yet holds what it held before the run. *)
Lemma main_unregistered_untouched (opts : options) (pid : N) (w : world) (n : string) :
  In n (intermediates opts pid) ->
  ~ In n (rm_rasters (main_state opts pid w)) ->
  rasters (session (main_state opts pid w)) n = rasters w n.
Proof.
  intros Hin Hnot.
  pose proof (main_run_spec opts pid w) as Hrun.
  inversion Hrun as [Hf Hr Hs | k c wk w' Hf Hchain Hnth Hfail Hr Hs | w' Hf Hchain Hr Hs];
    rewrite <- Hs in Hnot; cbn [session rm_rasters] in *.
  - reflexivity.
  - change (run_module c wk) with (run c wk) in Hfail.
    apply run_false in Hfail. subst w'.
    destruct k as [| k]; [cbn in Hchain; subst wk; reflexivity |].
    assert (Hnew : n = pop_raster_new pid /\ (k < 3)%nat).
    { do 3 (destruct k as [| k];
            [cbn [In intermediates registered firstn] in Hin, Hnot;
             split; [intuition congruence | lia] |]).
      exfalso. apply Hnot. exact Hin. }
    destruct Hnew as [-> Hk].
    pose proof (pop_raster_new_not_mask pid) as HnM.
    pose proof (pop_raster_new_not_grow1 (population_raster opts) pid) as Hng1.
    pose proof (pop_raster_new_not_grow2 (population_raster opts) pid) as Hng2.
    cbn [main_commands builder_commands app] in Hchain.
    change (@run_module world grass_world) with run in Hchain.
    destruct k as [| [| [| k]]]; [| | | lia]; cbn [firstn succeeded] in Hchain.
    + destruct Hchain as (w1 & E1 & ->).
      apply run_true, exec_mask_vector in E1. destruct E1 as (_ & cover & _ & ->).
      lookup. reflexivity.
    + destruct Hchain as (w1 & E1 & w2 & E2 & ->).
      apply run_true, exec_mask_vector in E1. destruct E1 as (_ & cover & _ & ->).
      apply run_true, exec_grow in E2. destruct E2 as (r1 & _ & _ & ->).
      lookup. reflexivity.
    + destruct Hchain as (w1 & E1 & w2 & E2 & w3 & E3 & ->).
      apply run_true, exec_mask_vector in E1. destruct E1 as (_ & cover & _ & ->).
      apply run_true, exec_grow in E2. destruct E2 as (r1 & _ & _ & ->).
      apply run_true, exec_grow in E3. destruct E3 as (r2 & _ & _ & ->).
      lookup. reflexivity.
  - exfalso. apply Hnot. exact Hin.
Qed.

Lemma intermediates_not_mask (opts : options) (pid : N) (n : string) :
  In n (intermediates opts pid) -> n <> "MASK".
Proof.
  intros [<- | [<- | [<- | []]]];
    [apply temp_grow1_not_mask | apply temp_grow2_not_mask | apply pop_raster_new_not_mask].
Qed.

(** C7 (as amended). In a session where the removals [cleanup] issues work
    ([g.remove] on a raster that exists, [r.mask -r] on a mask that exists),
    after any run, normal or ended by an error of [main], [cleanup] has
    ended normally, no MASK exists, and under each of the three intermediate
    names there is no raster, or only the raster that was there before the
    run, left as it was by a run that ended before registering the name. *)
Theorem cleanup_removes_what_the_run_made (opts : options) (pid : N) (w : world) :
  (forall n, faulty w (g_remove_raster n) = false) ->
  faulty w r_mask_remove = false ->
  cleanup_result opts pid w = Returned tt
  /\ rasters (session (final_state opts pid w)) "MASK" = None
  /\ forall n, In n (intermediates opts pid) ->
               rasters (session (final_state opts pid w)) n = None
               \/ (~ In n (rm_rasters (main_state opts pid w))
                   /\ rasters (session (final_state opts pid w)) n = rasters w n).
Proof.
  intros Hwork Hmaskwork.
  rewrite cleanup_result_eq, final_state_eq.
  destruct (cleanup_store (main_state opts pid w)) as [Hok Hstore].
  { intros n. rewrite main_keeps_faulty. apply Hwork. }
  { rewrite main_keeps_faulty. exact Hmaskwork. }
  split; [exact Hok | split].
  - rewrite Hstore. rewrite String.eqb_refl, orb_true_r. reflexivity.
  - intros n Hin. rewrite Hstore.
    destruct (existsb (String.eqb n) (rm_rasters (main_state opts pid w))) eqn:Hreg;
      cbn [orb]; [left; reflexivity |].
    pose proof (intermediates_not_mask opts pid n Hin) as Hne.
    apply String.eqb_neq in Hne. rewrite Hne.
    right.
    assert (Hnot : ~ In n (rm_rasters (main_state opts pid w))).
    { intros Hreg'. apply in_existsb_eqb in Hreg'. congruence. }
    split; [exact Hnot |].
    exact (main_unregistered_untouched opts pid w n Hin Hnot).
Qed.

(** After the builder, the three intermediate rasters exist. *)
Lemma builder_creates (opts : options) (pid : N) (w w5 : world) (n : string) :
  succeeded (builder_commands opts pid) w w5 ->
  In n (intermediates opts pid) -> exists_raster w5 n = true.
Proof.
  intros Hchain Hin.
  cbn [builder_commands succeeded] in Hchain. unfold merge_command in Hchain.
  destruct Hchain as (w1 & E1 & w2 & E2 & w3 & E3 & w4 & E4 & w5' & E5 & ->).
  apply run_true in E1, E2, E3, E4, E5.
  apply exec_mask_vector in E1. destruct E1 as (_ & cover & _ & ->).
  apply exec_grow in E2. destruct E2 as (r1 & _ & _ & ->).
  apply exec_grow in E3. destruct E3 as (r2 & _ & _ & ->).
  apply exec_mask_remove in E4. destruct E4 as (_ & ->).
  apply exec_mapcalc in E5. destruct E5 as (out & e & Hparse & _ & _ & ->).
  apply parse_output_name in Hparse; [| apply plain_pop_raster_new]. subst out.
  pose proof (temp_grow1_not_mask (population_raster opts) pid) as Hg1M.
  pose proof (temp_grow2_not_mask (population_raster opts) pid) as Hg2M.
  apply String.eqb_neq in Hg1M, Hg2M.
  unfold exists_raster. cbn [rasters set_raster del_raster].
  destruct Hin as [<- | [<- | [<- | []]]].
  - rewrite Hg1M, String.eqb_refl.
    repeat match goal with |- context [String.eqb ?a ?b] => destruct (String.eqb a b) end;
      reflexivity.
  - rewrite Hg2M, String.eqb_refl.
    repeat match goal with |- context [String.eqb ?a ?b] => destruct (String.eqb a b) end;
      reflexivity.
  - rewrite String.eqb_refl. reflexivity.
Qed.

(** C9 (as amended). In a run of [main] that ends normally, [rm_rasters]
    is exactly the three intermediate names, the output name is not one of
    them, and every [g.remove] call of the whole run names one of the
    three.  The output raster [v.area.weigh] made is still there, as it was,
    when [cleanup] is over, whatever fails inside [cleanup], unless the
    output is itself called MASK.  Where the [g.remove] calls work,
    [cleanup] ends normally and leaves no raster under the three names and
    no MASK (so an output called MASK is released with it). *)
Theorem output_not_registered (opts : options) (pid : N) (w : world) :
  main_result opts pid w = Returned tt ->
  rm_rasters (main_state opts pid w)
  = [temp_grow1 (population_raster opts) pid;
     temp_grow2 (population_raster opts) pid;
     pop_raster_new pid]
  /\ ~ In (output opts) (rm_rasters (main_state opts pid w))
  /\ (forall name, In (EvRun (g_remove_raster name)) (log (final_state opts pid w)) ->
                   In name (intermediates opts pid))
  /\ (exists r, rasters (session (main_state opts pid w)) (output opts) = Some r
                /\ (output opts <> "MASK" ->
                    rasters (session (final_state opts pid w)) (output opts) = Some r))
  /\ ((forall n, faulty w (g_remove_raster n) = false) ->
      cleanup_result opts pid w = Returned tt
      /\ rasters (session (final_state opts pid w)) "MASK" = None
      /\ forall n, In n (intermediates opts pid) ->
                   rasters (session (final_state opts pid w)) n = None).
Proof.
  intros Hdone.
  pose proof (main_run_spec opts pid w) as Hrun.
  pose proof (main_keeps_faulty opts pid w) as Hfaulty.
  rewrite cleanup_result_eq.
  inversion Hrun as [Hf Hr Hs | k c wk w' Hf Hchain Hnth Hfail Hr Hs | w' Hf Hchain Hr Hs];
    try (rewrite Hdone in Hr; discriminate Hr).
  rewrite <- Hs in Hfaulty. cbn [session] in Hfaulty.
  cbn [rm_rasters session].
  cbn [main_commands builder_commands app succeeded] in Hchain.
  destruct Hchain as (w1 & E1 & w2 & E2 & w3 & E3 & w4 & E4 & w5 & E5 & w6 & E6 & ->).
  assert (Hbuilt : succeeded (builder_commands opts pid) w w5).
  { cbn [builder_commands succeeded]. eauto 12. }
  assert (Hrelease : faulty w6 r_mask_remove = false).
  { pose proof (exec_not_faulty _ _ _ (run_true _ _ _ E4)) as Hrel.
    rewrite <- (exec_keeps_faulty _ _ _ (run_true _ _ _ E4)),
      <- (exec_keeps_faulty _ _ _ (run_true _ _ _ E5)),
      <- (exec_keeps_faulty _ _ _ (run_true _ _ _ E6)) in Hrel.
    exact Hrel. }
  apply run_true, exec_weigh in E6. destruct E6 as (Hfree & res & ->).
  assert (Hnotin : ~ In (output opts) (intermediates opts pid)).
  { intros Hin. pose proof (builder_creates opts pid w w5 _ Hbuilt Hin) as Hex.
    unfold exists_raster in Hex. rewrite Hfree in Hex. discriminate Hex. }
  split; [reflexivity | split; [exact Hnotin | split; [| split]]].
  - intros name Hin. rewrite final_state_eq, <- Hs in Hin.
    match type of Hin with In _ (log (snd (cleanup ?s1))) =>
      destruct (cleanup_log s1) as [added [Hlog Hcmds]] end.
    rewrite Hlog in Hin. cbn [log rm_rasters] in Hin, Hcmds.
    apply in_app_or in Hin. destruct Hin as [Hin | Hin].
    + cbn in Hin. repeat (destruct Hin as [Hin | Hin]; try discriminate Hin).
      contradiction.
    + destruct (Hcmds _ Hin) as [Hc | (n & Hn & Hc)]; [discriminate Hc |].
      injection Hc as ->. exact Hn.
  - exists res. split; [apply rasters_set_same |].
    intros HoutM. rewrite final_state_eq, <- Hs.
    rewrite cleanup_frame; [apply rasters_set_same | exact Hnotin | exact HoutM].
  - intros Hwork. rewrite final_state_eq, <- Hs.
    match goal with |- fst (cleanup ?s1) = _ /\ _ =>
      destruct (cleanup_store s1) as [Hok Hstore] end.
    { cbn [session]. intros n. rewrite Hfaulty. apply Hwork. }
    { cbn [session]. exact Hrelease. }
    split; [exact Hok | split].
    + rewrite Hstore, String.eqb_refl, orb_true_r. reflexivity.
    + intros n Hn. rewrite Hstore. cbn [rm_rasters].
      apply in_existsb_eqb in Hn. rewrite Hn. reflexivity.
Qed.

End SessionFacts.

(** ** The statements on sample sessions *)

Section Samples.
Import Session.

Lemma missing_program_fails_fast_witness :
  find_program "v.area.weigh" "--help" bare_session = false
  /\ main_result town_options 77 bare_session = Raised (SystemExit 1)
  /\ session (main_state town_options 77 bare_session) = bare_session.
Proof.
  assert (Hmissing : find_program "v.area.weigh" "--help" bare_session = false)
    by reflexivity.
  split; [exact Hmissing |].
  destruct (missing_program_fails_fast town_options 77 bare_session Hmissing)
    as (Hr & _ & _ & Hs & _).
  split; [exact Hr | exact Hs].
Defined.

Lemma main_command_order_witness :
  reached_weigh (log (main_state town_options 77 gap_session)) = true
  /\ commands_of (log (main_state town_options 77 gap_session))
     = [r_mask_vector "urban";
        r_grow "pop" "pop_grownbyone_77" (101 # 100);
        r_grow "pop_grownbyone_77" "pop_shrunkbyone_77" (- (101 # 100));
        r_mask_remove;
        r_mapcalc "pop_raster_temp_77 =if(isnull(pop), pop_shrunkbyone_77,pop)";
        v_area_weigh "admin" "inhabitants" "pop_raster_temp_77" "out"].
Proof.
  split; [vm_compute; reflexivity |].
  apply (main_command_order town_options 77 gap_session).
  vm_compute. reflexivity.
Defined.

(** With no column given, the run still gets to [v.area.weigh], which
    fails in the sample sessions; [main] ends with that error. *)
Lemma column_passed_verbatim_witness :
  reached_weigh (log (main_state no_column_options 77 gap_session)) = true
  /\ In (EvRun (v_area_weigh "admin" "" "pop_raster_temp_77" "out"))
        (log (main_state no_column_options 77 gap_session))
  /\ main_result no_column_options 77 gap_session
     = Raised (CalledModuleError (v_area_weigh "admin" "" "pop_raster_temp_77" "out")).
Proof.
  assert (Hreach : reached_weigh (log (main_state no_column_options 77 gap_session)) = true)
    by (vm_compute; reflexivity).
  destruct (column_passed_verbatim no_column_options 77 gap_session) as (_ & _ & Hweigh).
  destruct (Hweigh Hreach) as [Hin Hres].
  split; [exact Hreach | split; [exact Hin |]].
  destruct Hres as [Hres | Hres]; [| exact Hres].
  exfalso. vm_compute in Hres. discriminate Hres.
Defined.

Lemma merge_prefers_original_witness :
  Mapcalc.plain_name (population_raster town_options) = true
  /\ reached_weigh (log (main_state town_options 77 gap_session)) = true
  /\ exists orig shrunk composite : raster,
       rasters (session (main_state town_options 77 gap_session)) "pop" = Some orig
       /\ rasters (session (main_state town_options 77 gap_session))
                  "pop_shrunkbyone_77" = Some shrunk
       /\ rasters (session (main_state town_options 77 gap_session))
                  "pop_raster_temp_77" = Some composite
       /\ forall c, in_region gap_session c = true ->
                    composite c = match orig c with
                                  | None => shrunk c
                                  | Some v => Some v
                                  end.
Proof.
  split; [reflexivity | split; [vm_compute; reflexivity |]].
  apply (merge_prefers_original town_options 77 gap_session);
    [reflexivity | vm_compute; reflexivity].
Defined.

Lemma outside_urban_is_original_witness :
  Mapcalc.plain_name (population_raster town_options) = true
  /\ reached_weigh (log (main_state town_options 77 rural_session)) = true
  /\ exists (orig : raster) (cover : cell -> bool) (composite : raster),
       rasters rural_session "pop" = Some orig
       /\ vectors rural_session "urban" = Some cover
       /\ rasters (session (main_state town_options 77 rural_session))
                  "pop_raster_temp_77" = Some composite
       /\ forall c, in_region rural_session c = true -> cover c = false ->
                    composite c = orig c.
Proof.
  split; [reflexivity | split; [vm_compute; reflexivity |]].
  apply (outside_urban_is_original town_options 77 rural_session);
    [reflexivity | vm_compute; reflexivity].
Defined.

Lemma empty_urban_extent_passes_through_witness :
  reached_weigh (log (main_state town_options 77 rural_session)) = true
  /\ exists composite : raster,
       rasters (session (main_state town_options 77 rural_session))
               "pop_raster_temp_77" = Some composite
       /\ forall c, in_region rural_session c = true -> composite c = gap_raster c.
Proof.
  apply (empty_urban_extent_passes_through town_options 77 rural_session
           gap_raster nowhere).
  - reflexivity.
  - reflexivity.
  - intros c _. reflexivity.
  - reflexivity.
  - reflexivity.
  - reflexivity.
  - intros n [<- | [<- | [<- | []]]]; vm_compute; reflexivity.
  - intros c _. reflexivity.
Defined.

(** C6. The code breaks the claim.  In a session where the shrink and
    every [g.remove] fail while the release of the mask works, [main] ends
    with the error of the shrink, the mask set and the grown raster made.
    [cleanup] finds the grown raster, calls [g.remove] on it, and the
    [CalledModuleError] of that call leaves [cleanup]: line 83 of the source
    is outside any [try].  Nothing more is done: the second registered name
    is not looked at, MASK is not checked, and the mask stays set although
    its release would have worked.  The mask release two lines below is
    inside [try: ... except: pass]: in the session where it fails,
    [cleanup] calls it and ends normally. *)
Theorem cleanup_lets_g_remove_error_escape :
  let s := main_state town_options 77 failing_removal_session in
  main_result town_options 77 failing_removal_session
  = Raised (CalledModuleError
              (r_grow "pop_grownbyone_77" "pop_shrunkbyone_77" (- (101 # 100))))
  /\ rm_rasters s = ["pop_grownbyone_77"; "pop_shrunkbyone_77"]
  /\ find_file "pop_grownbyone_77" "raster" (session s) = true
  /\ find_file "MASK" "raster" (session s) = true
  /\ faulty (session s) r_mask_remove = false
  /\ fst (cleanup s) = Raised (CalledModuleError (g_remove_raster "pop_grownbyone_77"))
  /\ skipn (length (log s)) (log (snd (cleanup s)))
     = [EvFindFile "pop_grownbyone_77" "raster";
        EvRun (g_remove_raster "pop_grownbyone_77")]
  /\ find_file "MASK" "raster" (session (snd (cleanup s))) = true
  /\ faulty stuck_mask_session r_mask_remove = true
  /\ skipn (length (log (main_state town_options 77 stuck_mask_session)))
           (log (final_state town_options 77 stuck_mask_session))
     = [EvFindFile "pop_grownbyone_77" "raster";
        EvFindFile "pop_shrunkbyone_77" "raster";
        EvFindFile "MASK" "raster";
        EvRun r_mask_remove]
  /\ cleanup_result town_options 77 stuck_mask_session = Returned tt.
Proof. cbv zeta. repeat split; vm_compute; reflexivity. Qed.

(** C7, the claim as stated fails: where [g.remove] fails the three
    intermediate rasters are still there after the run, and where [r.grow]
    and the release of the mask fail the run ends with the mask in place. *)
Lemma leftovers_after_failing_removals :
  map (exists_raster (session (final_state town_options 77 readonly_session)))
      (intermediates town_options 77) = [true; true; true]
  /\ main_result town_options 77 stuck_mask_session
     = Raised (CalledModuleError (r_grow "pop" "pop_grownbyone_77" (101 # 100)))
  /\ cleanup_result town_options 77 stuck_mask_session = Returned tt
  /\ exists_raster (session (final_state town_options 77 stuck_mask_session)) "MASK" = true.
Proof. repeat split; vm_compute; reflexivity. Qed.

Lemma cleanup_removes_what_the_run_made_witness :
  (forall n, faulty gap_session (g_remove_raster n) = false)
  /\ faulty gap_session r_mask_remove = false
  /\ cleanup_result town_options 77 gap_session = Returned tt
  /\ rasters (session (final_state town_options 77 gap_session)) "MASK" = None.
Proof.
  assert (Hwork : forall n, faulty gap_session (g_remove_raster n) = false)
    by (intros n; reflexivity).
  assert (Hmaskwork : faulty gap_session r_mask_remove = false) by reflexivity.
  split; [exact Hwork | split; [exact Hmaskwork |]].
  destruct (cleanup_removes_what_the_run_made town_options 77 gap_session Hwork Hmaskwork)
    as (Hok & Hmask & _).
  split; [exact Hok | exact Hmask].
Defined.

(** C8, the claim as stated fails: two cells with data, one nodata cell
    between them, the whole region urban; the cells above and below the
    gap are not grown, so the shrink takes the gap cell away again. *)
Lemma gap_not_closed_in_gap_session :
  reached_weigh (log (main_state town_options 77 gap_session)) = true
  /\ vectors gap_session "urban" = Some everywhere
  /\ map (in_region gap_session) [(1, 0); (1, 1); (1, 2)]%Z = [true; true; true]
  /\ map gap_raster [(1, 0); (1, 1); (1, 2)]%Z = [Some 5; None; Some 7]%Z
  /\ match rasters (session (main_state town_options 77 gap_session))
                   "pop_raster_temp_77" with
     | Some composite => composite (1, 1)%Z
     | None => Some 0%Z
     end = None.
Proof. repeat split; vm_compute; reflexivity. Qed.

Lemma gap_closed_when_neighbours_near_data_witness :
  existsb (defined (through ring_session everywhere ring_raster))
          (neighbours ring_session radius_grow (1, 1)%Z) = true
  /\ exists (composite : raster) (v : Z),
       rasters (session (main_state town_options 77 ring_session))
               "pop_raster_temp_77" = Some composite
       /\ composite (1, 1)%Z = Some v.
Proof.
  split; [vm_compute; reflexivity |].
  apply (gap_closed_when_neighbours_near_data town_options 77 ring_session
           ring_raster everywhere (1, 1)%Z).
  - reflexivity.
  - vm_compute. reflexivity.
  - reflexivity.
  - reflexivity.
  - reflexivity.
  - reflexivity.
  - reflexivity.
  - vm_compute. reflexivity.
  - intros n Hn. vm_compute in Hn.
    destruct Hn as [<- | [<- | [<- | [<- | []]]]]; split; vm_compute; reflexivity.
Defined.

(** C9, the claim as stated fails: with the output called MASK, [main]
    ends normally and the output raster exists and is not registered, yet
    [cleanup] finds it as the mask and releases it; in a mapset where
    [g.remove] fails, [main] ends normally and the three intermediate
    rasters are still there after [cleanup]; and with the output called
    like the merged raster, the run fails at [v.area.weigh] with the output
    name in [rm_rasters]. *)
Lemma output_called_mask_is_released :
  main_result mask_output_options 77 gap_session = Returned tt
  /\ exists_raster (session (main_state mask_output_options 77 gap_session))
                   (output mask_output_options) = true
  /\ rm_rasters (main_state mask_output_options 77 gap_session)
     = ["pop_grownbyone_77"; "pop_shrunkbyone_77"; "pop_raster_temp_77"]
  /\ cleanup_result mask_output_options 77 gap_session = Returned tt
  /\ exists_raster (session (final_state mask_output_options 77 gap_session))
                   (output mask_output_options) = false
  /\ main_result town_options 77 readonly_session = Returned tt
  /\ map (exists_raster (session (final_state town_options 77 readonly_session)))
         (intermediates town_options 77) = [true; true; true]
  /\ main_result temp_output_options 77 gap_session
     = Raised (CalledModuleError
                 (v_area_weigh "admin" "inhabitants" "pop_raster_temp_77"
                               "pop_raster_temp_77"))
  /\ existsb (String.eqb (output temp_output_options))
             (rm_rasters (main_state temp_output_options 77 gap_session)) = true.
Proof. repeat split; vm_compute; reflexivity. Qed.

Lemma output_not_registered_witness :
  main_result town_options 77 gap_session = Returned tt
  /\ output town_options <> "MASK"
  /\ (forall n, faulty gap_session (g_remove_raster n) = false)
  /\ rm_rasters (main_state town_options 77 gap_session)
     = ["pop_grownbyone_77"; "pop_shrunkbyone_77"; "pop_raster_temp_77"]
  /\ (exists r, rasters (session (final_state town_options 77 gap_session)) "out" = Some r)
  /\ cleanup_result town_options 77 gap_session = Returned tt
  /\ rasters (session (final_state town_options 77 gap_session)) "MASK" = None
  /\ rasters (session (final_state town_options 77 gap_session)) "pop_raster_temp_77"
     = None.
Proof.
  assert (Hdone : main_result town_options 77 gap_session = Returned tt)
    by (vm_compute; reflexivity).
  assert (Hout : output town_options <> "MASK") by discriminate.
  assert (Hwork : forall n, faulty gap_session (g_remove_raster n) = false)
    by (intros n; reflexivity).
  split; [exact Hdone | split; [exact Hout | split; [exact Hwork |]]].
  destruct (output_not_registered town_options 77 gap_session Hdone)
    as (Hlist & _ & _ & (r & _ & Hr) & Hclean).
  destruct (Hclean Hwork) as (Hok & Hmask & Hgone).
  split; [exact Hlist | split; [exists r; exact (Hr Hout) | split; [exact Hok |]]].
  split; [exact Hmask |].
  apply Hgone. right. right. left. reflexivity.
Defined.

End Samples.

(** ** Further properties of the script, over any session *)

Section MoreScriptFacts.
Context {W : Type} `{Grass W}.

Lemma commands_of_map_run (cs : list command) : commands_of (map EvRun cs) = cs.
Proof.
  induction cs as [| c cs IH]; [reflexivity |].
  cbn [map]. unfold commands_of in *. cbn [flat_map app]. rewrite IH. reflexivity.
Qed.

Lemma commands_of_app (l1 l2 : list event) :
  commands_of (l1 ++ l2) = commands_of l1 ++ commands_of l2.
Proof. unfold commands_of. apply flat_map_app. Qed.

Lemma no_message_among_runs (msg : string) (cs : list command) :
  ~ In (EvMessage msg) (map EvRun cs).
Proof.
  intros Hin. apply in_map_iff in Hin. destruct Hin as (c & Hc & _). discriminate Hc.
Qed.

(** X4. How [main] ends.  It returns only when the six modules have all
    succeeded, one after the other, and the message is then the last event.
    It exits through [grass.fatal] only with status 1, only when the add-on
    is not found, and before any module call.  Any other error is the
    [CalledModuleError] of a module of the sequence: the modules before it
    succeeded, it failed, it is the last call, and no message is printed. *)
Theorem main_stops_at_first_failure (opts : options) (pid : N) (w : W) :
  match main_result opts pid w with
  | Returned _ =>
      succeeded (main_commands opts pid) w (session (main_state opts pid w))
      /\ log (main_state opts pid w)
         = EvFindProgram "v.area.weigh" "--help"
             :: map EvRun (main_commands opts pid)
             ++ [EvMessage (gettext ("Generated raster <" ++ output opts ++ ">"))]
  | Raised (SystemExit status) =>
      status = 1%Z
      /\ find_program "v.area.weigh" "--help" w = false
      /\ commands_of (log (main_state opts pid w)) = []
  | Raised (CalledModuleError c) =>
      exists (k : nat) (wk : W),
        nth_error (main_commands opts pid) k = Some c
        /\ succeeded (firstn k (main_commands opts pid)) w wk
        /\ run_module c wk = (session (main_state opts pid w), false)
        /\ commands_of (log (main_state opts pid w))
           = firstn (S k) (main_commands opts pid)
        /\ forall msg, ~ In (EvMessage msg) (log (main_state opts pid w))
  end.
Proof.
  pose proof (main_run_spec opts pid w) as Hrun.
  inversion Hrun as [Hf Hr Hs | k c wk w' Hf Hchain Hnth Hfail Hr Hs | w' Hf Hchain Hr Hs];
    cbn [session log].
  - repeat split. exact Hf.
  - exists k, wk. repeat split; try assumption.
    + change (commands_of (map EvRun (firstn (S k) (main_commands opts pid)))
              = firstn (S k) (main_commands opts pid)).
      apply commands_of_map_run.
    + intros msg [Hin | Hin]; [discriminate Hin |].
      apply (no_message_among_runs msg (firstn (S k) (main_commands opts pid))).
      exact Hin.
  - split; [exact Hchain | reflexivity].
Qed.

(** X3. [main] registers a name before it calls the module that makes the
    raster: however the run ends, the output of every [r.grow] call made is
    in [rm_rasters], and when the merge was called, the name its expression
    assigns to is. *)
Theorem outputs_registered_before_created (opts : options) (pid : N) (w : W) (c : command) :
  In (EvRun c) (log (main_state opts pid w)) ->
  match c with
  | r_grow _ out _ => In out (rm_rasters (main_state opts pid w))
  | r_mapcalc expression =>
      expression = mapcalc_expression (pop_raster_new pid) (population_raster opts)
                     (temp_grow2 (population_raster opts) pid) (population_raster opts)
      /\ In (pop_raster_new pid) (rm_rasters (main_state opts pid w))
  | _ => True
  end.
Proof.
  intros Hin.
  pose proof (main_run_spec opts pid w) as Hrun.
  inversion Hrun as [Hf Hr Hs | k c' wk w' Hf Hchain Hnth Hfail Hr Hs | w' Hf Hchain Hr Hs];
    rewrite <- Hs in Hin; cbn [log rm_rasters] in *.
  - destruct Hin as [Hin | [Hin | []]]; discriminate Hin.
  - destruct Hin as [Hin | Hin]; [discriminate Hin |].
    do 6 (destruct k as [| k];
          [cbn [main_commands builder_commands app firstn map In] in Hin;
           unfold merge_command, weigh_command in Hin;
           repeat (destruct Hin as [Hin | Hin]; [injection Hin as <- |]);
           try contradiction;
           cbn [registered intermediates firstn In]; tauto |]).
    destruct k; discriminate Hnth.
  - destruct Hin as [Hin | Hin]; [discriminate Hin |].
    cbn [main_commands builder_commands app firstn map In] in Hin.
    unfold merge_command, weigh_command in Hin.
    repeat (destruct Hin as [Hin | Hin];
            [first [discriminate Hin | injection Hin as <-] |]);
      try contradiction; cbn [intermediates In]; tauto.
Qed.

Lemma guarded_after_check (n element : string) (l : list event) :
  guarded l = true -> guarded (EvFindFile n element :: l) = true.
Proof.
  intros Hl. destruct l as [| [] l]; cbn [guarded] in *;
    try discriminate Hl; exact Hl.
Qed.

Lemma remove_rasters_guarded (names : list string) (s : state W) :
  exists added,
    log (snd (remove_rasters names s)) = log s ++ added
    /\ forall rest, guarded rest = true -> guarded (added ++ rest) = true.
Proof.
  revert s. induction names as [| rmrast names' IH]; intros s.
  - exists []. split; [cbn; rewrite app_nil_r; reflexivity | intros rest Hrest; exact Hrest].
  - cbn [remove_rasters]. unfold bind, grass_find_file, grass_run_command, ret.
    cbn [fst snd session].
    destruct (find_file rmrast "raster" (session s)).
    + destruct (run_module (g_remove_raster rmrast) (session (emit _ s))) as [w' []].
      * match goal with |- context [remove_rasters names' ?s1] =>
          destruct (IH s1) as [added [Hlog Hguard]] end.
        exists (EvFindFile rmrast "raster" :: EvRun (g_remove_raster rmrast) :: added).
        split.
        -- rewrite Hlog. cbn [log emit]. rewrite <- !app_assoc. reflexivity.
        -- intros rest Hrest. cbn [app guarded].
           rewrite String.eqb_refl, (Hguard rest Hrest). reflexivity.
      * exists [EvFindFile rmrast "raster"; EvRun (g_remove_raster rmrast)].
        split.
        -- cbn [snd log emit]. rewrite <- app_assoc. reflexivity.
        -- intros rest Hrest. cbn [app guarded]. rewrite String.eqb_refl. exact Hrest.
    + destruct (IH (emit (EvFindFile rmrast "raster") s)) as [added [Hlog Hguard]].
      exists (EvFindFile rmrast "raster" :: added).
      split.
      * rewrite Hlog. cbn [log emit]. rewrite <- app_assoc. reflexivity.
      * intros rest Hrest. cbn [app]. apply guarded_after_check. exact (Hguard rest Hrest).
Qed.

(** X5. [cleanup] removes nothing it has not just looked for: the events it
    adds are existence checks, [g.remove] calls that each come right after
    the check of the same raster, and at most a mask release that comes
    right after the check of MASK; it prints nothing and calls no other
    module. *)
Theorem cleanup_checks_before_removing (s : state W) :
  exists added,
    log (snd (cleanup s)) = log s ++ added /\ guarded added = true.
Proof.
  unfold cleanup, bind, get_rm_rasters. cbn [fst snd].
  destruct (remove_rasters_guarded (rm_rasters s) s) as [added [Hlog Hguard]].
  destruct (remove_rasters (rm_rasters s) s) as [[[] | e] s1] eqn:Erm; cbn [snd] in Hlog.
  - unfold grass_find_file, try_except_pass, grass_run_command, ret. cbn [fst snd session].
    destruct (find_file "MASK" "raster" (session s1)).
    + destruct (run_module r_mask_remove (session (emit _ s1))) as [w' []]; cbn [snd log emit];
        exists (added ++ [EvFindFile "MASK" "raster"; EvRun r_mask_remove]);
        (split; [rewrite Hlog, <- !app_assoc; reflexivity | apply Hguard; reflexivity]).
    + cbn [snd log emit]. exists (added ++ [EvFindFile "MASK" "raster"]).
      split; [rewrite Hlog, <- !app_assoc; reflexivity | apply Hguard; reflexivity].
  - cbn [snd]. exists added. split; [exact Hlog |].
    rewrite <- (app_nil_r added). apply Hguard. reflexivity.
Qed.

(** X11. The run gets to the weighting step exactly when the add-on is
    found and the five builder modules succeed one after the other. *)
Theorem weigh_reached_iff_builder_succeeds (opts : options) (pid : N) (w : W) :
  reached_weigh (log (main_state opts pid w)) = true
  <-> find_program "v.area.weigh" "--help" w = true
      /\ exists w5, succeeded (builder_commands opts pid) w w5.
Proof.
  split.
  - intros Hreach. destruct (reached_weigh_inv opts pid w Hreach) as (w5 & Hf & Hchain & _).
    split; [exact Hf | exists w5; exact Hchain].
  - intros (Hf & w5 & Hchain). exact (proj1 (builder_reaches_weigh opts pid w w5 Hf Hchain)).
Qed.

End MoreScriptFacts.

(** ** Further properties of the names *)

Section MoreNameFacts.

Lemma temp_grow1_longer (p : string) (pid : N) : temp_grow1 p pid <> p.
Proof.
  unfold temp_grow1. intros Heq. apply (f_equal String.length) in Heq.
  rewrite !length_append in Heq. cbn in Heq. lia.
Qed.

Lemma temp_grow2_longer (p : string) (pid : N) : temp_grow2 p pid <> p.
Proof.
  unfold temp_grow2. intros Heq. apply (f_equal String.length) in Heq.
  rewrite !length_append in Heq. cbn in Heq. lia.
Qed.

(** X1. Whatever the population raster is called and whatever the process
    id, the three intermediate names are pairwise different, none of them
    is MASK, and the grown and the shrunk raster are not called like the
    population raster. *)
Theorem intermediate_names_distinct (p : string) (pid : N) :
  NoDup [temp_grow1 p pid; temp_grow2 p pid; pop_raster_new pid]
  /\ ~ In "MASK" [temp_grow1 p pid; temp_grow2 p pid; pop_raster_new pid]
  /\ temp_grow1 p pid <> p
  /\ temp_grow2 p pid <> p.
Proof.
  pose proof (temp_grows_differ p pid) as H12.
  pose proof (pop_raster_new_not_grow1 p pid) as Hn1.
  pose proof (pop_raster_new_not_grow2 p pid) as Hn2.
  split; [| split; [| split; [apply temp_grow1_longer | apply temp_grow2_longer]]].
  - constructor; [| constructor; [| constructor; [| constructor]]]; cbn [In].
    + intros [Heq | [Heq | []]]; congruence.
    + intros [Heq | []]; congruence.
    + intros [].
  - intros [Heq | [Heq | [Heq | []]]].
    + exact (temp_grow1_not_mask p pid Heq).
    + exact (temp_grow2_not_mask p pid Heq).
    + exact (pop_raster_new_not_mask pid Heq).
Qed.

Lemma str_of_pid_inj (pid1 pid2 : N) : str_of_pid pid1 = str_of_pid pid2 -> pid1 = pid2.
Proof.
  unfold str_of_pid. intros Heq.
  assert (Hnonnil : forall n, N.to_uint n <> Decimal.Nil).
  { intros [| q]; [discriminate | apply DecimalPos.Unsigned.to_uint_nonnil]. }
  apply (f_equal NilZero.uint_of_string) in Heq.
  rewrite !NilZero.usu in Heq by apply Hnonnil.
  injection Heq as Heq. apply DecimalN.Unsigned.to_uint_inj. exact Heq.
Qed.

(** X2. Two runs with different process ids on the same population raster
    use three different pairs of intermediate names. *)
Theorem names_differ_between_processes (p : string) (pid1 pid2 : N) :
  pid1 <> pid2 ->
  temp_grow1 p pid1 <> temp_grow1 p pid2
  /\ temp_grow2 p pid1 <> temp_grow2 p pid2
  /\ pop_raster_new pid1 <> pop_raster_new pid2.
Proof.
  intros Hpid. unfold temp_grow1, temp_grow2, pop_raster_new.
  repeat split; intros Heq; apply Hpid, str_of_pid_inj.
  - apply append_inj_l in Heq. apply (append_inj_l "_grownbyone_") in Heq. exact Heq.
  - apply append_inj_l in Heq. apply (append_inj_l "_shrunkbyone_") in Heq. exact Heq.
  - apply (append_inj_l "pop_raster_temp_") in Heq. exact Heq.
Qed.

Lemma names_differ_between_processes_witness :
  temp_grow1 "pop" 77 <> temp_grow1 "pop" 78
  /\ temp_grow2 "pop" 77 <> temp_grow2 "pop" 78
  /\ pop_raster_new 77 <> pop_raster_new 78.
Proof.
  apply (names_differ_between_processes "pop" 77 78). lia.
Defined.

End MoreNameFacts.

(** ** Further properties in the reference session *)

Section MoreSessionFacts.
Import Session.

Ltac run_at :=
  match goal with
  | |- context [run ?c ?x] =>
      let w' := fresh "w" in
      let ok := fresh "ok" in
      let E := fresh "E" in
      destruct (run c x) as [w' ok] eqn:E; cbn [session rm_rasters log] in E
  end.

Ltac look :=
  repeat first
    [ rewrite rasters_set_same
    | rewrite rasters_del_same
    | rewrite rasters_set_other by congruence
    | rewrite rasters_del_other by congruence ].

Lemma run_mask_vector_under_mask (v : string) (w w1 : world) (m : raster) :
  rasters w "MASK" = Some m -> run (r_mask_vector v) w = (w1, true) -> False.
Proof.
  intros Hm E. apply run_true, exec_mask_vector in E. destruct E as [Hnone _].
  congruence.
Qed.

(** X6. A run started while a mask is set (add-on installed) ends at the
    first module: [r.mask vector=...] fails, nothing is registered and the
    session is as before.  [cleanup] then finds the mask and releases it:
    where the release works, the mask that was set before the run is gone
    and every other raster is as it was. *)
Theorem run_under_existing_mask (opts : options) (pid : N) (w : world) (m : raster) :
  installed w "v.area.weigh" = true ->
  rasters w "MASK" = Some m ->
  main_result opts pid w = Raised (CalledModuleError (r_mask_vector (urban_vector opts)))
  /\ session (main_state opts pid w) = w
  /\ rm_rasters (main_state opts pid w) = []
  /\ cleanup_result opts pid w = Returned tt
  /\ rasters (session (final_state opts pid w)) "MASK"
     = (if faulty w r_mask_remove then Some m else None)
  /\ forall n, n <> "MASK" -> rasters (session (final_state opts pid w)) n = rasters w n.
Proof.
  intros Hinst Hmask.
  pose proof (main_run_spec opts pid w) as Hrun.
  rewrite cleanup_result_eq, final_state_eq.
  inversion Hrun as [Hf Hr Hs | k c wk w' Hf Hchain Hnth Hfail Hr Hs | w' Hf Hchain Hr Hs].
  - cbn in Hf. congruence.
  - destruct k as [| k].
    + cbn in Hchain. subst wk. injection Hnth as <-.
      change (run_module (r_mask_vector (urban_vector opts)) w)
        with (run (r_mask_vector (urban_vector opts)) w) in Hfail.
      apply run_false in Hfail. subst w'.
      cbn [session rm_rasters registered].
      split; [reflexivity | split; [reflexivity | split; [reflexivity |]]].
      unfold cleanup, bind, get_rm_rasters, grass_find_file, try_except_pass,
        grass_run_command, ret, emit.
      cbn [rm_rasters remove_rasters ret fst snd].
      cbn [find_file run_module grass_world]. cbn [fst snd session rm_rasters log].
      change (find "MASK" "raster" w) with (exists_raster w "MASK").
      unfold exists_raster at 1 2 3. rewrite Hmask.
      run_at. unfold run, exec, exists_raster in E. rewrite Hmask in E.
      destruct (faulty w r_mask_remove); injection E as <- <-; cbn [fst snd session].
      * split; [reflexivity | split; [exact Hmask | intros n _; reflexivity]].
      * split; [reflexivity | split; [apply rasters_del_same |]].
        intros n Hne. apply rasters_del_other. exact Hne.
    + exfalso. cbn [main_commands builder_commands app firstn succeeded] in Hchain.
      destruct Hchain as (w1 & E1 & _).
      exact (run_mask_vector_under_mask _ w w1 m Hmask E1).
  - exfalso. cbn [main_commands builder_commands app succeeded] in Hchain.
    destruct Hchain as (w1 & E1 & _).
    exact (run_mask_vector_under_mask _ w w1 m Hmask E1).
Qed.

Lemma run_under_existing_mask_witness :
  main_result town_options 77 masked_session
  = Raised (CalledModuleError (r_mask_vector "urban"))
  /\ rasters (session (final_state town_options 77 masked_session)) "MASK" = None.
Proof.
  destruct (run_under_existing_mask town_options 77 masked_session (fun _ => Some 1%Z))
    as (Hr & _ & _ & _ & Hmask & _); [reflexivity | reflexivity |].
  split; [exact Hr | exact Hmask].
Defined.

Lemma run_keeps_absent (c : command) (w : world) (n : string) :
  (c = r_mask_remove \/ exists m, c = g_remove_raster m) ->
  rasters w n = None -> rasters (fst (run c w)) n = None.
Proof.
  intros Hc Hn. unfold run. destruct (exec c w) as [w' |] eqn:E; cbn [fst]; [| exact Hn].
  destruct Hc as [-> | [m ->]].
  - apply exec_mask_remove in E. destruct E as (_ & ->).
    cbn. destruct (String.eqb n "MASK"); [reflexivity | exact Hn].
  - apply exec_remove in E. destruct E as (_ & ->).
    cbn. destruct (String.eqb n m); [reflexivity | exact Hn].
Qed.

Lemma remove_rasters_never_creates (names : list string) (s : state world) (n : string) :
  rasters (session s) n = None ->
  rasters (session (snd (remove_rasters names s))) n = None.
Proof.
  revert s. induction names as [| rmrast rest IH]; intros s Hn; [exact Hn |].
  cbn [remove_rasters]. unfold bind, grass_find_file, grass_run_command, ret, emit.
  cbn [find_file run_module grass_world]. cbn [fst snd session rm_rasters log].
  destruct (find rmrast "raster" (session s)).
  - run_at.
    pose proof (run_keeps_absent (g_remove_raster rmrast) (session s) n
                  (or_intror (ex_intro _ rmrast eq_refl)) Hn) as Hkeep.
    rewrite E in Hkeep. cbn [fst] in Hkeep.
    destruct ok; cbn [fst snd session]; [apply IH; exact Hkeep | exact Hkeep].
  - apply IH. exact Hn.
Qed.

Lemma cleanup_never_creates (s : state world) (n : string) :
  rasters (session s) n = None -> rasters (session (snd (cleanup s))) n = None.
Proof.
  intros Hn.
  pose proof (remove_rasters_never_creates (rm_rasters s) s n Hn) as Hrm.
  unfold cleanup, bind, get_rm_rasters. cbn [fst snd].
  destruct (remove_rasters (rm_rasters s) s) as [[[] | e] s1]; cbn [fst snd] in *;
    [| exact Hrm].
  unfold grass_find_file, try_except_pass, grass_run_command, ret, emit.
  cbn [find_file run_module grass_world]. cbn [fst snd session rm_rasters log].
  destruct (find "MASK" "raster" (session s1)); [| exact Hrm].
  run_at.
  pose proof (run_keeps_absent r_mask_remove (session s1) n (or_introl eq_refl) Hrm)
    as Hkeep.
  rewrite E in Hkeep. cbn [fst] in Hkeep.
  destruct ok; cbn [fst snd session]; exact Hkeep.
Qed.

(** The first registered raster does not survive [cleanup] when [g.remove]
    works on it. *)
Lemma cleanup_removes_head (s : state world) (n : string) (rest : list string) :
  rm_rasters s = n :: rest ->
  faulty (session s) (g_remove_raster n) = false ->
  rasters (session (snd (cleanup s))) n = None.
Proof.
  intros Hlist Hwork.
  assert (Hrm : rasters (session (snd (remove_rasters (n :: rest) s))) n = None).
  { cbn [remove_rasters]. unfold bind, grass_find_file, grass_run_command, ret, emit.
    cbn [find_file run_module grass_world]. cbn [fst snd session rm_rasters log].
    change (find n "raster" (session s)) with (exists_raster (session s) n).
    destruct (exists_raster (session s) n) eqn:Hex.
    - destruct (exists_raster_true _ _ Hex) as [r Hr].
      run_at. rewrite (run_remove_ok n (session s) r Hwork Hr) in E.
      injection E as <- <-. cbn [fst snd].
      apply remove_rasters_never_creates. cbn [session]. apply rasters_del_same.
    - apply remove_rasters_never_creates. cbn [session].
      apply exists_raster_false. exact Hex. }
  unfold cleanup, bind, get_rm_rasters. cbn [fst snd]. rewrite Hlist.
  destruct (remove_rasters (n :: rest) s) as [[[] | e] s1]; cbn [fst snd] in *;
    [| exact Hrm].
  unfold grass_find_file, try_except_pass, grass_run_command, ret, emit.
  cbn [find_file run_module grass_world]. cbn [fst snd session rm_rasters log].
  destruct (find "MASK" "raster" (session s1)); [| exact Hrm].
  run_at.
  pose proof (run_keeps_absent r_mask_remove (session s1) n (or_introl eq_refl) Hrm)
    as Hkeep.
  rewrite E in Hkeep. cbn [fst] in Hkeep.
  destruct ok; cbn [fst snd session]; exact Hkeep.
Qed.

(** X10. When a raster already exists under the name of the grown raster
    (add-on installed, no mask set, the mask step works), the run ends at
    the first [r.grow], which fails on the existing output; both grow names
    are registered by then, and [cleanup], where [g.remove] works on that
    name, deletes the raster although the run did not make it. *)
Theorem existing_raster_under_grown_name_is_deleted
        (opts : options) (pid : N) (w : world) (cover : cell -> bool) (r : raster) :
  installed w "v.area.weigh" = true ->
  faulty w (r_mask_vector (urban_vector opts)) = false ->
  rasters w "MASK" = None ->
  vectors w (urban_vector opts) = Some cover ->
  rasters w (temp_grow1 (population_raster opts) pid) = Some r ->
  faulty w (g_remove_raster (temp_grow1 (population_raster opts) pid)) = false ->
  main_result opts pid w
  = Raised (CalledModuleError
              (r_grow (population_raster opts)
                      (temp_grow1 (population_raster opts) pid) radius_grow))
  /\ rm_rasters (main_state opts pid w)
     = [temp_grow1 (population_raster opts) pid; temp_grow2 (population_raster opts) pid]
  /\ rasters (session (main_state opts pid w)) (temp_grow1 (population_raster opts) pid)
     = Some r
  /\ rasters (session (final_state opts pid w)) (temp_grow1 (population_raster opts) pid)
     = None.
Proof.
  intros Hinst Hmaskwork Hmask Hcover Hthere Hwork.
  set (p := population_raster opts) in *.
  pose proof (temp_grow1_not_mask p pid) as Hg1M.
  pose proof (run_mask_vector_ok (urban_vector opts) w cover Hmaskwork Hmask Hcover) as Hc1.
  assert (Hthere1 : forall w1, run (r_mask_vector (urban_vector opts)) w = (w1, true) ->
                               w1 = set_raster w "MASK" (mask_of w cover)
                               /\ rasters w1 (temp_grow1 p pid) = Some r).
  { intros w1 E1. rewrite Hc1 in E1. injection E1 as <-. split; [reflexivity |].
    look. exact Hthere. }
  assert (Hc2 : forall w1 w2, run (r_mask_vector (urban_vector opts)) w = (w1, true) ->
                              run (r_grow p (temp_grow1 p pid) radius_grow) w1 = (w2, true) ->
                              False).
  { intros w1 w2 E1 E2. destruct (Hthere1 w1 E1) as [_ Hg1].
    apply run_true, exec_grow in E2. destruct E2 as (r1 & _ & Hfree & _). congruence. }
  pose proof (main_run_spec opts pid w) as Hrun.
  rewrite final_state_eq.
  inversion Hrun as [Hf Hr Hs | k c wk w' Hf Hchain Hnth Hfail Hr Hs | w' Hf Hchain Hr Hs].
  - cbn in Hf. congruence.
  - change (run_module c wk) with (run c wk) in Hfail.
    destruct k as [| [| k]].
    + cbn in Hchain. subst wk. injection Hnth as <-. rewrite Hc1 in Hfail. discriminate Hfail.
    + cbn [main_commands builder_commands app firstn succeeded] in Hchain.
      destruct Hchain as (w1 & E1 & ->). injection Hnth as <-.
      apply run_false in Hfail. subst w'.
      destruct (Hthere1 w1 E1) as [-> Hg1].
      cbn [session rm_rasters registered intermediates firstn]. fold p.
      split; [reflexivity | split; [reflexivity | split; [exact Hg1 |]]].
      eapply cleanup_removes_head; [reflexivity | exact Hwork].
    + exfalso. cbn [main_commands builder_commands app firstn succeeded] in Hchain.
      destruct Hchain as (w1 & E1 & w2 & E2 & _). exact (Hc2 w1 w2 E1 E2).
  - exfalso. cbn [main_commands builder_commands app succeeded] in Hchain.
    destruct Hchain as (w1 & E1 & w2 & E2 & _). exact (Hc2 w1 w2 E1 E2).
Qed.

Lemma existing_raster_under_grown_name_is_deleted_witness :
  rasters occupied_session "pop_grownbyone_77" = Some ring_raster
  /\ main_result town_options 77 occupied_session
     = Raised (CalledModuleError (r_grow "pop" "pop_grownbyone_77" (101 # 100)))
  /\ rasters (session (final_state town_options 77 occupied_session)) "pop_grownbyone_77"
     = None.
Proof.
  split; [reflexivity |].
  destruct (existing_raster_under_grown_name_is_deleted town_options 77 occupied_session
              everywhere ring_raster)
    as (Hr & _ & _ & Hgone); try reflexivity.
  split; [exact Hr | exact Hgone].
Defined.

Lemma cleanup_keeps_list (s : state world) : rm_rasters (snd (cleanup s)) = rm_rasters s.
Proof.
  pose proof (remove_rasters_keeps_list (rm_rasters s) s) as Hrm.
  unfold cleanup, bind, get_rm_rasters. cbn [fst snd].
  destruct (remove_rasters (rm_rasters s) s) as [[[] | e] s1]; cbn [fst snd] in *;
    [| exact Hrm].
  unfold grass_find_file, try_except_pass, grass_run_command, ret, emit.
  cbn [find_file run_module grass_world]. cbn [fst snd session rm_rasters log].
  destruct (find "MASK" "raster" (session s1)); [| exact Hrm].
  run_at. destruct ok; cbn [fst snd rm_rasters]; exact Hrm.
Qed.

Lemma remove_rasters_absent (names : list string) (s : state world) :
  (forall n, In n names -> rasters (session s) n = None) ->
  fst (remove_rasters names s) = Returned tt
  /\ session (snd (remove_rasters names s)) = session s
  /\ commands_of (log (snd (remove_rasters names s))) = commands_of (log s).
Proof.
  revert s. induction names as [| rmrast rest IH]; intros s Habsent.
  - repeat split.
  - cbn [remove_rasters]. unfold bind, grass_find_file, grass_run_command, ret, emit.
    cbn [find_file run_module grass_world]. cbn [fst snd session rm_rasters log].
    change (find rmrast "raster" (session s)) with (exists_raster (session s) rmrast).
    unfold exists_raster. rewrite (Habsent rmrast (or_introl eq_refl)).
    match goal with |- context [remove_rasters rest ?s1] =>
      destruct (IH s1) as (Hok & Hsession & Hlog) end.
    { intros n Hn. cbn [session]. apply Habsent. right. exact Hn. }
    split; [exact Hok | split; [exact Hsession |]].
    rewrite Hlog. cbn [log]. rewrite commands_of_app. cbn. apply app_nil_r.
Qed.

(** X7. Where the removals work, running [cleanup] again changes nothing:
    the second run ends normally, calls no module and leaves the session as
    the first run left it. *)
Theorem cleanup_twice_is_cleanup_once (s : state world) :
  (forall n, faulty (session s) (g_remove_raster n) = false) ->
  faulty (session s) r_mask_remove = false ->
  fst (cleanup (snd (cleanup s))) = Returned tt
  /\ session (snd (cleanup (snd (cleanup s)))) = session (snd (cleanup s))
  /\ commands_of (log (snd (cleanup (snd (cleanup s)))))
     = commands_of (log (snd (cleanup s))).
Proof.
  intros Hwork Hmaskwork.
  destruct (cleanup_store s Hwork Hmaskwork) as [_ Hstore].
  pose proof (cleanup_keeps_list s) as Hlist.
  set (s1 := snd (cleanup s)) in *.
  assert (Habsent : forall n, In n (rm_rasters s1) -> rasters (session s1) n = None).
  { intros n Hn. rewrite Hstore. rewrite Hlist in Hn.
    apply in_existsb_eqb in Hn. rewrite Hn. reflexivity. }
  assert (Hnomask : rasters (session s1) "MASK" = None).
  { rewrite Hstore, String.eqb_refl, orb_true_r. reflexivity. }
  destruct (remove_rasters_absent (rm_rasters s1) s1 Habsent) as (Hok & Hsession & Hlog).
  unfold cleanup, bind, get_rm_rasters. cbn [fst snd].
  destruct (remove_rasters (rm_rasters s1) s1) as [[[] | e] s2]; cbn [fst snd] in *;
    [| discriminate Hok].
  unfold grass_find_file, try_except_pass, grass_run_command, ret, emit.
  cbn [find_file run_module grass_world]. cbn [fst snd session rm_rasters log].
  change (find "MASK" "raster" (session s2)) with (exists_raster (session s2) "MASK").
  unfold exists_raster. rewrite Hsession, Hnomask. cbn [fst snd session log].
  split; [reflexivity | split; [reflexivity |]].
  rewrite commands_of_app, Hlog. cbn. apply app_nil_r.
Qed.

Lemma cleanup_twice_is_cleanup_once_witness :
  fst (cleanup (snd (cleanup (main_state town_options 77 gap_session)))) = Returned tt
  /\ commands_of (log (snd (cleanup (snd (cleanup (main_state town_options 77
                                                               gap_session))))))
     = commands_of (log (snd (cleanup (main_state town_options 77 gap_session)))).
Proof.
  destruct (cleanup_twice_is_cleanup_once (main_state town_options 77 gap_session))
    as (Hok & _ & Hlog).
  - intros n. vm_compute. reflexivity.
  - vm_compute. reflexivity.
  - split; [exact Hok | exact Hlog].
Defined.

(** X8. A run of [main] that ends normally, cleaned up in a session where
    [g.remove] works, leaves every raster but the output as it was before
    the run: nothing else is added, changed or lost. *)
Theorem successful_run_adds_only_output (opts : options) (pid : N) (w : world) :
  main_result opts pid w = Returned tt ->
  (forall n, faulty w (g_remove_raster n) = false) ->
  output opts <> "MASK" ->
  forall n, n <> output opts ->
            rasters (session (final_state opts pid w)) n = rasters w n.
Proof.
  intros Hdone Hwork HoutM n Hnout.
  pose proof (main_run_spec opts pid w) as Hrun.
  pose proof (main_keeps_faulty opts pid w) as Hfaulty.
  rewrite final_state_eq.
  inversion Hrun as [Hf Hr Hs | k c wk w' Hf Hchain Hnth Hfail Hr Hs | w' Hf Hchain Hr Hs];
    try (rewrite Hdone in Hr; discriminate Hr).
  rewrite <- Hs in Hfaulty. cbn [session] in Hfaulty.
  set (p := population_raster opts) in *.
  cbn [main_commands builder_commands app succeeded] in Hchain.
  unfold merge_command, weigh_command in Hchain. fold p in Hchain.
  destruct Hchain as (w1 & E1 & w2 & E2 & w3 & E3 & w4 & E4 & w5 & E5 & w6 & E6 & ->).
  apply run_true in E1, E2, E3, E4, E5, E6.
  pose proof (exec_not_faulty _ _ _ E4) as Hrelease.
  rewrite <- (exec_keeps_faulty _ _ _ E4), <- (exec_keeps_faulty _ _ _ E5),
    <- (exec_keeps_faulty _ _ _ E6) in Hrelease.
  apply exec_mask_vector in E1. destruct E1 as (Hmask0 & cover & _ & ->).
  apply exec_grow in E2. destruct E2 as (r1 & _ & Hg1free & ->).
  apply exec_grow in E3. destruct E3 as (r2 & _ & Hg2free & ->).
  apply exec_mask_remove in E4. destruct E4 as (_ & ->).
  apply exec_mapcalc in E5. destruct E5 as (out & e & Hparse & _ & Hnewfree & ->).
  apply parse_output_name in Hparse; [| apply plain_pop_raster_new]. subst out.
  apply exists_raster_false in Hnewfree.
  apply exec_weigh in E6. destruct E6 as (_ & res & ->).
  pose proof (temp_grow1_not_mask p pid) as Hg1M.
  pose proof (temp_grow2_not_mask p pid) as Hg2M.
  pose proof (temp_grows_differ p pid) as Hg1g2.
  pose proof (pop_raster_new_not_grow1 p pid) as Hng1.
  pose proof (pop_raster_new_not_grow2 p pid) as Hng2.
  pose proof (pop_raster_new_not_mask pid) as HnM.
  rewrite rasters_set_other in Hg1free by exact Hg1M.
  rewrite !rasters_set_other in Hg2free by congruence.
  rewrite rasters_del_other in Hnewfree by exact HnM.
  rewrite !rasters_set_other in Hnewfree by congruence.
  match goal with |- rasters (session (snd (cleanup ?s1))) n = _ =>
    destruct (cleanup_store s1) as [_ Hstore] end.
  { cbn [session]. intros m. rewrite Hfaulty. apply Hwork. }
  { cbn [session]. exact Hrelease. }
  rewrite Hstore. cbn [rm_rasters session intermediates existsb]. fold p.
  destruct (String.eqb_spec n (temp_grow1 p pid)) as [-> | Hn1]; cbn [orb];
    [symmetry; exact Hg1free |].
  destruct (String.eqb_spec n (temp_grow2 p pid)) as [-> | Hn2]; cbn [orb];
    [symmetry; exact Hg2free |].
  destruct (String.eqb_spec n (pop_raster_new pid)) as [-> | Hn3]; cbn [orb];
    [symmetry; exact Hnewfree |].
  destruct (String.eqb_spec n "MASK") as [-> | Hn4]; [symmetry; exact Hmask0 |].
  look. reflexivity.
Qed.

Lemma successful_run_adds_only_output_witness :
  main_result town_options 77 gap_session = Returned tt
  /\ rasters (session (final_state town_options 77 gap_session)) "pop_grownbyone_77"
     = rasters gap_session "pop_grownbyone_77".
Proof.
  assert (Hdone : main_result town_options 77 gap_session = Returned tt)
    by (vm_compute; reflexivity).
  split; [exact Hdone |].
  apply (successful_run_adds_only_output town_options 77 gap_session Hdone).
  - intros n. reflexivity.
  - discriminate.
  - discriminate.
Defined.

Lemma first_value_in (r : raster) (cs : list cell) (v : Z) :
  first_value r cs = Some v -> exists n, In n cs /\ r n = Some v.
Proof.
  induction cs as [| c cs IH]; cbn [first_value]; [discriminate |].
  destruct (r c) as [v' |] eqn:Hc.
  - intros Heq. injection Heq as <-. exists c. split; [left; reflexivity | exact Hc].
  - intros Hrest. destruct (IH Hrest) as (n & Hin & Hn).
    exists n. split; [right; exact Hin | exact Hn].
Qed.

Lemma through_some (w : world) (cover : cell -> bool) (r : raster) (c : cell) (v : Z) :
  through w cover r c = Some v -> cover c = true /\ r c = Some v.
Proof.
  unfold through. destruct (in_region w c); cbn [andb]; [| discriminate].
  destruct (cover c); [auto | discriminate].
Qed.

(** X9. What the builder changes.  When a run gets to the weighting step,
    the merged raster is nodata outside the region, keeps every value of
    the population raster, and at a nodata cell either stays nodata or, for
    a cell in the urban areas, takes the value of a cell next to it that
    has data and lies in the urban areas: a nodata cell with no such
    neighbour is never filled. *)
Theorem builder_fills_only_next_to_urban_data (opts : options) (pid : N) (w : world) :
  Mapcalc.plain_name (population_raster opts) = true ->
  reached_weigh (log (main_state opts pid w)) = true ->
  exists (orig : raster) (cover : cell -> bool) (composite : raster),
    rasters w (population_raster opts) = Some orig
    /\ vectors w (urban_vector opts) = Some cover
    /\ rasters (session (main_state opts pid w)) (pop_raster_new pid) = Some composite
    /\ (forall c, in_region w c = false -> composite c = None)
    /\ (forall c v, in_region w c = true -> orig c = Some v -> composite c = Some v)
    /\ (forall c v, in_region w c = true -> orig c = None -> composite c = Some v ->
                    cover c = true
                    /\ exists n, In n (neighbours w radius_grow c)
                                 /\ cover n = true /\ orig n = Some v).
Proof.
  intros Hplain Hreach.
  destruct (weighting_surface opts pid w Hplain Hreach)
    as (orig & cover & g1r & g2r & comp & Hp & Hcover & _ & _ & Hnew & Hgrown
        & Hshrunk & Hmerge).
  exists orig, cover, comp.
  split; [exact Hp | split; [exact Hcover | split; [exact Hnew | split; [| split]]]].
  - intros c Hc. rewrite Hmerge, Hc. reflexivity.
  - intros c v Hc Hv. rewrite Hmerge, Hc, Hv. reflexivity.
  - intros c v Hc Hnodata Hfilled.
    rewrite Hmerge, Hc, Hnodata, Hshrunk in Hfilled.
    unfold grow in Hfilled. rewrite Hc in Hfilled.
    change (Qle_bool 0 radius_shrink) with false in Hfilled. cbn iota in Hfilled.
    destruct (through w cover g1r c) as [v' |] eqn:Hthrough; [| discriminate Hfilled].
    destruct (forallb _ _); [| discriminate Hfilled].
    injection Hfilled as ->.
    apply through_some in Hthrough. destruct Hthrough as [Hcov Hg1].
    split; [exact Hcov |].
    rewrite Hgrown in Hg1. unfold grow in Hg1. rewrite Hc in Hg1.
    change (Qle_bool 0 radius_grow) with true in Hg1. cbn iota in Hg1.
    assert (Horig : through w cover orig c = None).
    { unfold through. rewrite Hc, Hcov. exact Hnodata. }
    rewrite Horig in Hg1.
    destruct (first_value_in _ _ _ Hg1) as (n & Hin & Hn).
    apply through_some in Hn. destruct Hn as [Hncov Hnv].
    exists n. split; [exact Hin | split; [exact Hncov | exact Hnv]].
Qed.

Lemma builder_fills_only_next_to_urban_data_witness :
  Mapcalc.plain_name (population_raster town_options) = true
  /\ reached_weigh (log (main_state town_options 77 ring_session)) = true
  /\ exists composite : raster,
       rasters (session (main_state town_options 77 ring_session))
               "pop_raster_temp_77" = Some composite
       /\ composite (0, 0)%Z = Some 3%Z.
Proof.
  assert (Hreach : reached_weigh (log (main_state town_options 77 ring_session)) = true)
    by (vm_compute; reflexivity).
  split; [reflexivity | split; [exact Hreach |]].
  destruct (builder_fills_only_next_to_urban_data town_options 77 ring_session
              eq_refl Hreach)
    as (orig & cover & comp & Hp & _ & Hnew & _ & Hkeep & _).
  exists comp. split; [exact Hnew |].
  apply Hkeep; [reflexivity |].
  assert (Horig : Some orig = Some ring_raster) by (rewrite <- Hp; reflexivity).
  injection Horig as ->. reflexivity.
Defined.

(** X12. [main] does not release the mask on an error.  When it ends with
    the error of one of the two [r.grow] calls or of the mask release, the
    mask it made from the urban areas is still set when [main] is over; it
    is [cleanup] that has to release it. *)
Theorem failed_builder_leaves_mask_set (opts : options) (pid : N) (w : world) (c : command) :
  main_result opts pid w = Raised (CalledModuleError c) ->
  (exists input out radius, c = r_grow input out radius) \/ c = r_mask_remove ->
  exists cover,
    vectors w (urban_vector opts) = Some cover
    /\ rasters (session (main_state opts pid w)) "MASK" = Some (mask_of w cover).
Proof.
  intros Hraised Hc.
  pose proof (main_run_spec opts pid w) as Hrun.
  inversion Hrun as [Hf Hr Hs | k c' wk w' Hf Hchain Hnth Hfail Hr Hs | w' Hf Hchain Hr Hs];
    rewrite Hraised in Hr; try discriminate Hr.
  injection Hr as ->. cbn [session].
  change (run_module c wk) with (run c wk) in Hfail.
  apply run_false in Hfail. subst w'.
  pose proof (temp_grow1_not_mask (population_raster opts) pid) as Hg1M.
  pose proof (temp_grow2_not_mask (population_raster opts) pid) as Hg2M.
  cbn [main_commands builder_commands app] in Hchain, Hnth.
  unfold merge_command, weigh_command in Hnth.
  change (@run_module world grass_world) with run in Hchain.
  destruct k as [| [| [| [| [| [| k]]]]]]; cbn [nth_error] in Hnth;
    try (injection Hnth as <-);
    try (destruct Hc as [(i & o & r & Hc) | Hc]; discriminate Hc);
    cbn [firstn succeeded] in Hchain.
  - destruct Hchain as (w1 & E1 & ->).
    apply run_true, exec_mask_vector in E1. destruct E1 as (_ & cover & Hcover & ->).
    exists cover. split; [exact Hcover | apply rasters_set_same].
  - destruct Hchain as (w1 & E1 & w2 & E2 & ->).
    apply run_true, exec_mask_vector in E1. destruct E1 as (_ & cover & Hcover & ->).
    apply run_true, exec_grow in E2. destruct E2 as (r1 & _ & _ & ->).
    exists cover. split; [exact Hcover | look; reflexivity].
  - destruct Hchain as (w1 & E1 & w2 & E2 & w3 & E3 & ->).
    apply run_true, exec_mask_vector in E1. destruct E1 as (_ & cover & Hcover & ->).
    apply run_true, exec_grow in E2. destruct E2 as (r1 & _ & _ & ->).
    apply run_true, exec_grow in E3. destruct E3 as (r2 & _ & _ & ->).
    exists cover. split; [exact Hcover | look; reflexivity].
  - destruct k; discriminate Hnth.
Qed.

Lemma failed_builder_leaves_mask_set_witness :
  main_result town_options 77 stuck_mask_session
  = Raised (CalledModuleError (r_grow "pop" "pop_grownbyone_77" (101 # 100)))
  /\ exists cover,
       vectors stuck_mask_session "urban" = Some cover
       /\ rasters (session (main_state town_options 77 stuck_mask_session)) "MASK"
          = Some (mask_of stuck_mask_session cover).
Proof.
  assert (Hraised : main_result town_options 77 stuck_mask_session
                    = Raised (CalledModuleError
                                (r_grow "pop" "pop_grownbyone_77" (101 # 100))))
    by (vm_compute; reflexivity).
  split; [exact Hraised |].
  apply (failed_builder_leaves_mask_set town_options 77 stuck_mask_session _ Hraised).
  left. exists "pop", "pop_grownbyone_77", (101 # 100). reflexivity.
Defined.

(** X13. When [v.area.weigh] is called, the mask has been released and the
    three intermediate rasters exist, the weight raster among them: the
    weighting reads its weights without a mask. *)
Theorem weigh_runs_without_mask (opts : options) (pid : N) (w : world) :
  reached_weigh (log (main_state opts pid w)) = true ->
  exists w5,
    succeeded (builder_commands opts pid) w w5
    /\ session (main_state opts pid w) = fst (run (weigh_command opts pid) w5)
    /\ rasters w5 "MASK" = None
    /\ forall n, In n (intermediates opts pid) -> exists_raster w5 n = true.
Proof.
  intros Hreach.
  destruct (reached_weigh_inv opts pid w Hreach) as (w5 & _ & Hchain & Hfinal).
  exists w5. split; [exact Hchain | split; [exact Hfinal | split]].
  - cbn [builder_commands succeeded] in Hchain. unfold merge_command in Hchain.
    destruct Hchain as (w1 & _ & w2 & _ & w3 & _ & w4 & E4 & w5' & E5 & ->).
    apply run_true, exec_mask_remove in E4. destruct E4 as (_ & ->).
    apply run_true, exec_mapcalc in E5. destruct E5 as (out & e & Hparse & _ & _ & ->).
    apply parse_output_name in Hparse; [| apply plain_pop_raster_new]. subst out.
    pose proof (pop_raster_new_not_mask pid) as HnM.
    rewrite rasters_set_other by congruence. apply rasters_del_same.
  - intros n Hn. exact (builder_creates opts pid w w5 n Hchain Hn).
Qed.

Lemma weigh_runs_without_mask_witness :
  reached_weigh (log (main_state town_options 77 gap_session)) = true
  /\ exists w5,
       succeeded (builder_commands town_options 77) gap_session w5
       /\ rasters w5 "MASK" = None.
Proof.
  assert (Hreach : reached_weigh (log (main_state town_options 77 gap_session)) = true)
    by (vm_compute; reflexivity).
  split; [exact Hreach |].
  destruct (weigh_runs_without_mask town_options 77 gap_session Hreach)
    as (w5 & Hchain & _ & Hmask & _).
  exists w5. split; [exact Hchain | exact Hmask].
Defined.

End MoreSessionFacts.

Section MoreSamples.
Import Session.

Lemma outputs_registered_before_created_witness :
  In (EvRun (r_grow "pop" "pop_grownbyone_77" (101 # 100)))
     (log (main_state town_options 77 stuck_mask_session))
  /\ In "pop_grownbyone_77" (rm_rasters (main_state town_options 77 stuck_mask_session)).
Proof.
  assert (Hin : In (EvRun (r_grow "pop" "pop_grownbyone_77" (101 # 100)))
                   (log (main_state town_options 77 stuck_mask_session))).
  { vm_compute. right. right. left. reflexivity. }
  split; [exact Hin |].
  exact (outputs_registered_before_created town_options 77 stuck_mask_session _ Hin).
Defined.

End MoreSamples.
